(** * Hackernews-top-10: the ranking pipeline and the even-number filters

    A shallow embedding of [hn_top10_daily.py], [even_numbers.py] and
    [identify_even_numbers.py].

    Python values are embedded as follows.
    - [int] is [Z] (unbounded); [str] of an [int] raises above 4300
      digits, the interpreter's default limit.
    - [str] is a list of Unicode code points ([pystr]); [len] and slices
      count code points, as Python does.
    - a decoded JSON value is [json]; Python's [None] is [JNull]; a float
      is a [spec_float] (binary64 as sign, mantissa, exponent).
    - a call that may raise returns an [outcome].
    - what the interpreter and the outside world supply (the network, the
      clock, the time-zone table, [int] on a string, [str] on floats and
      containers, the timing of the thread pool, the file a path names
      and whether the operating system accepts a write) is a [Variable]
      of the section [Pipeline]. *)

From Stdlib Require Import String Ascii.
From Stdlib Require Import ZArith List Bool Lia.
From Stdlib Require Import Sorted Permutation.
From Stdlib Require Import DecimalString DecimalZ.
From Stdlib Require DecimalPos DecimalFacts.
From Stdlib Require Import Floats.SpecFloat.
Import ListNotations.

Local Open Scope Z_scope.
Local Set Warnings "-register-all".

(** ** Text *)

Definition pystr := list N.

(** An ASCII literal as a Python [str]. *)
Definition lit (s : string) : pystr :=
  map N_of_ascii (list_ascii_of_string s).

Definition len {A} (l : list A) : Z := Z.of_nat (List.length l).

(** [l[:k]]: a negative bound counts from the end. *)
Definition slice_to {A} (l : list A) (k : Z) : list A :=
  if k <? 0 then firstn (Z.to_nat (len l + k)) l
  else firstn (Z.to_nat k) l.

(** The decimal numeral of [z]: what [str(z)] returns for an [int], when
    it returns (see [int_str_ok]). *)
Definition str_int (z : Z) : pystr :=
  lit (NilZero.string_of_int (Z.to_int z)).

(** Whether [str(z)] returns. With the default [sys.int_max_str_digits]
    of CPython 3.11 (and of the security releases of 3.9 and 3.10) it
    raises ValueError on an [int] of more than 4300 decimal digits. *)
Definition int_str_ok (z : Z) : bool := len (str_int (Z.abs z)) <=? 4300.

Definition pystr_eqb (a b : pystr) : bool :=
  if list_eq_dec N.eq_dec a b then true else false.

(** U+2026, the one-character ellipsis. *)
Definition ellipsis : N := 8230%N.
(** U+2014, the em dash of the Markdown lines. *)
Definition emdash : N := 8212%N.
Definition LF : N := 10%N.
Definition CR : N := 13%N.
Definition COMMA : N := 44%N.
Definition DQUOTE : N := 34%N.

(** ** The even-number scripts *)

Module EvenNumbers.
(** [even_numbers.py] *)
Definition is_even (number : Z) : bool := number mod 2 =? 0.

Definition find_even_numbers (numbers : list Z) : list Z :=
  filter (fun num => num mod 2 =? 0) numbers.
End EvenNumbers.

Module IdentifyEvenNumbers.
(** [identify_even_numbers.py] *)
Definition is_even (number : Z) : bool := number mod 2 =? 0.

Definition identify_even_numbers (numbers : list Z) : list Z :=
  filter (fun num => is_even num) numbers.
End IdentifyEvenNumbers.

(** The elements of [l] with remainder 0 modulo 2, in their order in [l]:
    the specification both scripts are compared with. *)
Fixpoint evens_spec (l : list Z) : list Z :=
  match l with
  | [] => []
  | x :: r => if Z.eq_dec (x mod 2) 0 then x :: evens_spec r else evens_spec r
  end.

(** ** Decoded JSON and Python values *)

Inductive json :=
| JNull
| JBool (b : bool)
| JInt (z : Z)
| JFloat (f : spec_float)
| JStr (s : pystr)
| JArr (l : list json)
| JObj (items : list (pystr * json)).

(** Truth value testing, as [not x] and [x or y] apply it. *)
Definition truthy (v : json) : bool :=
  match v with
  | JNull => false
  | JBool b => b
  | JInt z => negb (z =? 0)
  | JFloat (S754_zero _) => false
  | JFloat _ => true
  | JStr s => negb (len s =? 0)
  | JArr l => negb (len l =? 0)
  | JObj items => negb (len items =? 0)
  end.

(** [a or b] *)
Definition py_or (a b : json) : json := if truthy a then a else b.

(** Whether [str(v)] (and so [format] and an f-string field) returns: it
    raises when [v] is, or a list or dict in [v] holds, an [int] that
    [str] refuses. *)
Fixpoint str_defined (v : json) : bool :=
  match v with
  | JInt z => int_str_ok z
  | JArr l => forallb str_defined l
  | JObj items => forallb (fun kv => str_defined (snd kv)) items
  | _ => true
  end.

(** [d.get(k)] on the items of a dict (keys distinct); [None] when absent. *)
Fixpoint dict_get (items : list (pystr * json)) (k : pystr) : json :=
  match items with
  | [] => JNull
  | (k', v) :: r => if pystr_eqb k' k then v else dict_get r k
  end.

(** [k in d] *)
Fixpoint has_key (items : list (pystr * json)) (k : pystr) : bool :=
  match items with
  | [] => false
  | (k', _) :: r => pystr_eqb k' k || has_key r k
  end.

(** [v == s] for a [str] literal [s]: only an equal [str] compares equal. *)
Definition eq_str (v : json) (s : pystr) : bool :=
  match v with
  | JStr t => pystr_eqb t s
  | _ => false
  end.

(** ** Calls that may raise *)

Inductive outcome (A : Type) :=
| Returns (a : A)
| Raises.
Arguments Returns {A} a.
Arguments Raises {A}.

Definition bind {A B} (m : outcome A) (f : A -> outcome B) : outcome B :=
  match m with
  | Returns a => f a
  | Raises => Raises
  end.

Notation "x <- m ;; k" := (bind m (fun x => k))
  (at level 61, m at next level, right associativity).

Definition of_option {A} (o : option A) : outcome A :=
  match o with
  | Some a => Returns a
  | None => Raises
  end.

(** A call together with the URLs it requested, in submission order. *)
Definition logged (A : Type) : Type := outcome A * list pystr.

Definition lbind {A B} (m : logged A) (f : A -> logged B) : logged B :=
  match m with
  | (Returns a, l) => let (r, l') := f a in (r, l ++ l')
  | (Raises, l) => (Raises, l)
  end.

Definition lret {A} (a : A) : logged A := (Returns a, []).

Definition llift {A} (m : outcome A) : logged A := (m, []).

(** [ThreadPoolExecutor.map(f, xs)] followed by iteration over its results:
    every call is queued at once, the workers start the calls in the order
    of [xs], the results come back in that order, and the first call (in
    that order) that raised makes the iteration raise. The calls not yet
    started at that moment are cancelled and the started ones run to their
    end: [ahead] is the number of calls behind the one that raised which
    had been started by then, a matter of timing. The log holds the
    requests of the calls that ran. *)
Fixpoint pool_map {A B} (ahead : nat) (f : A -> logged B) (xs : list A)
  : logged (list B) :=
  match xs with
  | [] => (Returns [], [])
  | x :: r =>
      match f x with
      | (Returns b, l) =>
          let (os, ls) := pool_map ahead f r in
          (bs <- os ;; Returns (b :: bs), l ++ ls)
      | (Raises, l) =>
          (Raises, l ++ flat_map (fun y => snd (f y)) (firstn ahead r))
      end
  end.

(** ** Story *)

Module Story.
(** The dataclass. Its annotations are not enforced: [id], [title], [url]
    and [by] hold whatever the record held; [score], [time] and
    [descendants] went through [int]. *)
Record t := mk {
  id : json;
  title : json;
  url : json;
  score : Z;
  by_ : json;
  time : Z;
  descendants : Z
}.
End Story.

Definition API_BASE : pystr := lit "https://hacker-news.firebaseio.com/v0".
Definition NEW_STORIES_ENDPOINT : pystr := API_BASE ++ lit "/newstories.json".
Definition HN_ITEM_PREFIX : pystr := lit "https://news.ycombinator.com/item?id=".

(** What one [urlopen] and the decoding of its body come to. *)
Inductive response :=
| Body (j : json)  (** the body, decoded from UTF-8 and parsed *)
| Caught           (** HTTPError, URLError, TimeoutError or ValueError *)
| Uncaught.        (** any other exception *)

(** [int(x)] on a float: truncation towards zero; infinities and NaN raise. *)
Definition int_of_float (f : spec_float) : outcome Z :=
  match f with
  | S754_zero _ => Returns 0
  | S754_finite s m e =>
      let a := Z.shiftl (Z.pos m) e in
      Returns (if s then - a else a)
  | S754_infinity _ => Raises
  | S754_nan => Raises
  end.

(** The sort key of line 116. *)
Definition key (s : Story.t) : Z * Z * Z :=
  (Story.score s, Story.descendants s, Story.time s).

(** [a < b] on key tuples: lexicographic. *)
Definition key_ltb (a b : Z * Z * Z) : bool :=
  let '(a1, a2, a3) := a in
  let '(b1, b2, b3) := b in
  (a1 <? b1) || ((a1 =? b1) && ((a2 <? b2) || ((a2 =? b2) && (a3 <? b3)))).

Arguments key_ltb : simpl never.
Arguments key : simpl never.

(** [list.sort(key=key, reverse=True)]: the stable sort into non-increasing
    key order (stories with equal keys keep their relative order). *)
Fixpoint insert_desc (x : Story.t) (l : list Story.t) : list Story.t :=
  match l with
  | [] => [x]
  | y :: r =>
      if key_ltb (key x) (key y) then y :: insert_desc x r
      else x :: y :: r
  end.

Fixpoint sort_desc (l : list Story.t) : list Story.t :=
  match l with
  | [] => []
  | x :: r => insert_desc x (sort_desc r)
  end.

(** [a <= b] on key tuples, as a proposition. *)
Definition key_le (a b : Z * Z * Z) : Prop :=
  let '(a1, a2, a3) := a in
  let '(b1, b2, b3) := b in
  a1 < b1 \/ (a1 = b1 /\ (a2 < b2 \/ (a2 = b2 /\ a3 <= b3))).

Arguments key_le : simpl never.

(** Non-increasing key order: no story is followed by one of greater key. *)
Definition ranked (l : list Story.t) : Prop :=
  StronglySorted (fun x y => key_le (key y) (key x)) l.

(** Line 113 of the collector: the window filter on the stories fetched. *)
Definition recent_of (cutoff_ts : Z) (stories : list Story.t) : list Story.t :=
  filter (fun s => Story.time s >=? cutoff_ts) stories.

(** Lines 116 and 117: the sort and [recent[:10]]. *)
Definition rank (recent : list Story.t) : list Story.t :=
  firstn 10 (sort_desc recent).

(** ** Text helpers of the presenters *)

(** [sep.join(parts)] *)
Fixpoint join (sep : pystr) (parts : list pystr) : pystr :=
  match parts with
  | [] => []
  | [p] => p
  | p :: r => p ++ sep ++ join sep r
  end.

(** [s.ljust(w)] *)
Definition ljust (s : pystr) (w : Z) : pystr :=
  s ++ repeat 32%N (Z.to_nat (w - len s)).

(** [max] over a non-empty sequence of widths. *)
Definition max_list (l : list Z) : Z :=
  match l with
  | [] => 0
  | x :: r => fold_left Z.max r x
  end.

(** [enumerate(l, start)] *)
Fixpoint enumerate {A} (l : list A) (start : Z) : list (Z * A) :=
  match l with
  | [] => []
  | x :: r => (start, x) :: enumerate r (start + 1)
  end.

(** The heads of rows that are all non-empty. *)
Fixpoint heads {A} (rows : list (list A)) : option (list A) :=
  match rows with
  | [] => Some []
  | [] :: _ => None
  | (x :: _) :: r =>
      match heads r with
      | Some xs => Some (x :: xs)
      | None => None
      end
  end.

(** [zip(hs, *rows)]: the columns, as long as the shortest argument. *)
Fixpoint zip_star {A} (hs : list A) (rows : list (list A)) : list (list A) :=
  match hs with
  | [] => []
  | h :: hs' =>
      match heads rows with
      | Some xs => (h :: xs) :: zip_star hs' (map (@tl A) rows)
      | None => []
      end
  end.

(** Sequencing a list of calls, left to right. *)
Fixpoint sequence {A} (l : list (outcome A)) : outcome (list A) :=
  match l with
  | [] => Returns []
  | m :: r => a <- m ;; rest <- sequence r ;; Returns (a :: rest)
  end.

(** What [TextIOWrapper.write] accepts with [encoding="utf-8"]: text
    without surrogate code points. *)
Definition encodable (s : pystr) : bool :=
  forallb (fun c => (c <? 55296)%N || (57343 <? c)%N) s.

(** [f.write(text)] on a file opened for writing whose text so far is
    [file]. The model keeps the text written, before encoding and newline
    translation. *)
Definition write (file text : pystr) : outcome pystr :=
  if encodable text then Returns (file ++ text) else Raises.

(** ** The csv writer, excel dialect (QUOTE_MINIMAL, doubled quotes) *)

Definition csv_special (c : N) : bool :=
  (c =? COMMA)%N || (c =? DQUOTE)%N || (c =? CR)%N || (c =? LF)%N.

Fixpoint csv_double (s : pystr) : pystr :=
  match s with
  | [] => []
  | c :: r => if (c =? DQUOTE)%N then DQUOTE :: DQUOTE :: csv_double r
              else c :: csv_double r
  end.

Definition csv_quote (s : pystr) : pystr :=
  if existsb csv_special s then DQUOTE :: csv_double s ++ [DQUOTE] else s.

(** The text of one record, with its line terminator. A record of one
    empty field is written as a pair of quotes. *)
Definition csv_record (fields : list pystr) : pystr :=
  let rec_ := join [COMMA] (map csv_quote fields) in
  match fields, rec_ with
  | [_], [] => [DQUOTE; DQUOTE; CR; LF]
  | _, _ => rec_ ++ [CR; LF]
  end.

(** ** Reading text back *)

Definition is_nl (c : N) : bool := (c =? LF)%N || (c =? CR)%N.

(** The lines of a text file as text-mode iteration gives them: a line ends
    at LF, at CR LF or at a lone CR; the terminators are dropped here. *)
Fixpoint file_lines (text cur : pystr) : list pystr :=
  match text with
  | [] => match cur with [] => [] | _ => [cur] end
  | c :: r =>
      if (c =? LF)%N then cur :: file_lines r []
      else if (c =? CR)%N then
        match r with
        | c' :: r' => if (c' =? LF)%N then cur :: file_lines r' []
                      else cur :: file_lines r []
        | [] => cur :: file_lines r []
        end
      else file_lines r (cur ++ [c])
  end.

(** The csv reader of the excel dialect, as a state machine over the text
    of a file opened with [newline=""]: the reader takes the file line by
    line (terminators kept), feeds each character of a line and then an
    end-of-line mark, and delivers a record whenever the mark leaves it at
    the start of a record. A field that outgrows the field size limit is
    an error. *)
Module CsvReader.

Inductive state :=
| START_RECORD
| START_FIELD
| IN_FIELD
| IN_QUOTED_FIELD
| QUOTE_IN_QUOTED_FIELD
| EAT_CRNL.

(** Where the line iterator stands: between lines, inside a line, or
    after a CR that a following LF would complete. *)
Inductive line := Between | Inside | AfterCR.

Record t := mk {
  st : state;
  field : pystr;                 (** the field being read *)
  fields : list pystr;           (** the fields of the record so far *)
  records : list (list pystr);   (** the records delivered *)
  pos : line
}.

Definition init : t := mk START_RECORD [] [] [] Between.

Definition set_st (r : t) (s : state) : t :=
  mk s (field r) (fields r) (records r) (pos r).

Definition set_pos (r : t) (p : line) : t :=
  mk (st r) (field r) (fields r) (records r) p.

(** [csv.field_size_limit()], by default. *)
Definition FIELD_LIMIT : Z := 131072.

(** No field of the row is longer than the limit. *)
Definition within_limit (row : list pystr) : Prop :=
  Forall (fun f => len f <= FIELD_LIMIT) row.

(** One more character for the field being read; [None], the reader's
    error, when the field has reached the limit. *)
Definition add_char (r : t) (c : N) : option t :=
  if FIELD_LIMIT <=? len (field r) then None
  else Some (mk (st r) (field r ++ [c]) (fields r) (records r) (pos r)).

Definition then_st (o : option t) (s : state) : option t :=
  match o with
  | Some r => Some (set_st r s)
  | None => None
  end.

Definition save_field (r : t) : t :=
  mk (st r) [] (fields r ++ [field r]) (records r) (pos r).

(** One character of a line; [None] is the reader's error. *)
Definition process_char (r : t) (c : N) : option t :=
  match st r with
  | START_RECORD =>
      if is_nl c then Some (set_st r EAT_CRNL)
      else if (c =? DQUOTE)%N then Some (set_st r IN_QUOTED_FIELD)
      else if (c =? COMMA)%N then Some (set_st (save_field r) START_FIELD)
      else then_st (add_char r c) IN_FIELD
  | START_FIELD =>
      if is_nl c then Some (set_st (save_field r) EAT_CRNL)
      else if (c =? DQUOTE)%N then Some (set_st r IN_QUOTED_FIELD)
      else if (c =? COMMA)%N then Some (save_field r)
      else then_st (add_char r c) IN_FIELD
  | IN_FIELD =>
      if is_nl c then Some (set_st (save_field r) EAT_CRNL)
      else if (c =? COMMA)%N then Some (set_st (save_field r) START_FIELD)
      else add_char r c
  | IN_QUOTED_FIELD =>
      if (c =? DQUOTE)%N then Some (set_st r QUOTE_IN_QUOTED_FIELD)
      else add_char r c
  | QUOTE_IN_QUOTED_FIELD =>
      if (c =? DQUOTE)%N then then_st (add_char r c) IN_QUOTED_FIELD
      else if (c =? COMMA)%N then Some (set_st (save_field r) START_FIELD)
      else if is_nl c then Some (set_st (save_field r) EAT_CRNL)
      else then_st (add_char r c) IN_FIELD
  | EAT_CRNL =>
      if is_nl c then Some r else None
  end.

(** The end-of-line mark, and the delivery of a finished record. *)
Definition process_eol (r : t) : t :=
  match st r with
  | START_RECORD => r
  | START_FIELD | IN_FIELD | QUOTE_IN_QUOTED_FIELD =>
      set_st (save_field r) START_RECORD
  | IN_QUOTED_FIELD => r
  | EAT_CRNL => set_st r START_RECORD
  end.

Definition end_line (r : t) : t :=
  let r := process_eol r in
  match st r with
  | START_RECORD =>
      mk START_RECORD (field r) [] (records r ++ [fields r]) Between
  | _ => set_pos r Between
  end.

(** One character of the file. *)
Definition feed_in_line (r : t) (c : N) : option t :=
  match process_char r c with
  | None => None
  | Some r' =>
      if (c =? LF)%N then Some (end_line r')
      else if (c =? CR)%N then Some (set_pos r' AfterCR)
      else Some (set_pos r' Inside)
  end.

Definition feed (r : t) (c : N) : option t :=
  match pos r with
  | AfterCR =>
      if (c =? LF)%N then
        match process_char r c with
        | None => None
        | Some r' => Some (end_line r')
        end
      else feed_in_line (end_line r) c
  | _ => feed_in_line r c
  end.

Fixpoint run (r : t) (text : pystr) : option t :=
  match text with
  | [] => Some r
  | c :: rest =>
      match feed r c with
      | None => None
      | Some r' => run r' rest
      end
  end.

(** The end of the file: a last line without terminator is closed, and a
    quoted field still open is delivered with its record. *)
Definition finish (r : t) : list (list pystr) :=
  let r := match pos r with Between => r | _ => end_line r end in
  match st r with
  | IN_QUOTED_FIELD => records r ++ [fields r ++ [field r]]
  | _ => records r
  end.

(** [list(csv.reader(f))] *)
Definition read (text : pystr) : outcome (list (list pystr)) :=
  match run init text with
  | None => Raises
  | Some r => Returns (finish r)
  end.

(** The reader after a field the writer wrote, read from the start of a
    record or of a field (state [s], position [p]). *)
Definition after_field (s : state) (f : pystr) (flds : list pystr)
           (recs : list (list pystr)) (p : line) : t :=
  if existsb csv_special f then mk QUOTE_IN_QUOTED_FIELD f flds recs Inside
  else match f with
       | [] => mk s [] flds recs p
       | _ => mk IN_FIELD f flds recs Inside
       end.

End CsvReader.

(** ** The command line *)

(** The options after [parse_args]: [--limit], [--window-hours], [--csv]
    and [--md], the last two [None] when not given. *)
Record args := mk_args {
  args_limit : Z;
  args_window_hours : Z;
  args_csv : option pystr;
  args_md : option pystr
}.

(** ** A small world for the closed examples

    The examples below run the pipeline on records whose fields are
    [None], integers and strings, with timestamps after 1970. On those the
    definitions of this module are what Python computes. *)
Module Example.

(** [zfill]: a number of non-negative value, padded to [w] digits. *)
Definition pad (w : nat) (z : Z) : pystr :=
  let d := str_int z in
  repeat 48%N (w - List.length d) ++ d.

(** The IST rendering for timestamps from 1970 on to the end of year
    9999: the zone is at UTC+05:30 throughout, under the name IST. The
    date is the civil date of the day number (Gregorian calendar). *)
Definition strftime_ist (t : Z) : option pystr :=
  if (t <? 0) || (253402280999 <? t) then None
  else
    let local := t + 19800 in
    let days := local / 86400 in
    let secs := local mod 86400 in
    let z := days + 719468 in
    let era := z / 146097 in
    let doe := z - era * 146097 in
    let yoe := (doe - doe / 1460 + doe / 36524 - doe / 146096) / 365 in
    let doy := doe - (365 * yoe + yoe / 4 - yoe / 100) in
    let mp := (5 * doy + 2) / 153 in
    let d := doy - (153 * mp + 2) / 5 + 1 in
    let m := if mp <? 10 then mp + 3 else mp - 9 in
    let y := yoe + era * 400 + (if m <=? 2 then 1 else 0) in
    Some (pad 4 y ++ lit "-" ++ pad 2 m ++ lit "-" ++ pad 2 d ++ lit " "
          ++ pad 2 (secs / 3600) ++ lit ":" ++ pad 2 (secs mod 3600 / 60)
          ++ lit ":" ++ pad 2 (secs mod 60) ++ lit " IST").

(** The clock: the run starts at 2023-11-14 22:13:20 UTC. *)
Definition cutoff_at (window_hours : Z) : option Z :=
  Some (1700000000 - 3600 * window_hours).

(** No example converts a string with [int] or prints a float, a list or
    a dict: these two are not consulted. *)
Definition int_of_str (s : pystr) : option Z := None.
Definition str_other (v : json) : pystr := [].

Definition story_record (id score descendants time : Z) (title by_ : string)
  : json :=
  JObj [(lit "by", JStr (lit by_));
        (lit "descendants", JInt descendants);
        (lit "id", JInt id);
        (lit "score", JInt score);
        (lit "time", JInt time);
        (lit "title", JStr (lit title));
        (lit "type", JStr (lit "story"))].

Definition item (n : string) : pystr :=
  lit "https://hacker-news.firebaseio.com/v0/item/" ++ lit n ++ lit ".json".

(** A feed of six identifiers: three stories inside the window, one
    comment, one story record without identifier or fields, and one
    story with a negative score; identifier 107 is not served. *)
Definition urlopen (url : pystr) : response :=
  if pystr_eqb url NEW_STORIES_ENDPOINT then
    Body (JArr [JInt 101; JInt 102; JInt 103; JInt 104; JInt 105; JInt 106])
  else if pystr_eqb url (item "101") then
    Body (story_record 101 50 5 1699990000 "Show HN: a, b" "alice")
  else if pystr_eqb url (item "102") then
    Body (story_record 102 50 9 1699990000 "Ask HN" "bob")
  else if pystr_eqb url (item "103") then
    Body (story_record 103 30 100 1699990000 "Launch" "carol")
  else if pystr_eqb url (item "104") then
    Body (JObj [(lit "id", JInt 104); (lit "type", JStr (lit "comment"))])
  else if pystr_eqb url (item "105") then
    Body (JObj [(lit "type", JStr (lit "story"))])
  else if pystr_eqb url (item "106") then
    Body (JObj [(lit "id", JInt 106); (lit "score", JInt (-1));
                (lit "time", JInt 1699990000);
                (lit "type", JStr (lit "story"))])
  else Caught.

(** A world that serves, as item 201, a story record whose score is a
    list. *)
Definition urlopen_odd (url : pystr) : response :=
  if pystr_eqb url (item "201") then
    Body (JObj [(lit "id", JInt 201); (lit "score", JArr [JInt 1]);
                (lit "type", JStr (lit "story"))])
  else Caught.

(** A world whose feed lists a good story and then item 201. *)
Definition urlopen_bad_item (url : pystr) : response :=
  if pystr_eqb url NEW_STORIES_ENDPOINT then Body (JArr [JInt 101; JInt 201])
  else if pystr_eqb url (item "101") then urlopen url
  else urlopen_odd url.

(** A world whose feed is empty. *)
Definition urlopen_empty (url : pystr) : response :=
  if pystr_eqb url NEW_STORIES_ENDPOINT then Body (JArr []) else Caught.

Definition story (id score descendants time : Z) (title : string)
  : Story.t :=
  Story.mk (JInt id) (JStr (lit title)) JNull score (JStr (lit "pg")) time
           descendants.

(** The operating system accepts every write; a path names the file of
    that name, with no links; no file exists yet. *)
Definition os_accepts (path text : pystr) : bool := true.
Definition resolve (path : pystr) : pystr := path.
Definition no_files (file : pystr) : option pystr := None.

(** The pool never runs ahead of the call that raises. *)
Definition ran_ahead : nat := 0%nat.

(** A story whose title holds a line feed. *)
Definition two_line_title : Story.t :=
  Story.mk (JInt 7) (JStr (lit "a" ++ [LF] ++ lit "b")) JNull 1
           (JStr (lit "pg")) 1699990000 0.

(** Eleven stories of scores 1 to 11, in feed order. *)
Definition many : list Story.t :=
  map (fun i => story i i 0 1699990000 "t") [1; 2; 3; 4; 5; 6; 7; 8; 9; 10; 11].

(** A command line asking for both exports. *)
Definition both : args :=
  mk_args 400 24 (Some (lit "top.csv")) (Some (lit "top.md")).

(** A command line naming one file twice, and the file system on which
    a leading ["./"] changes nothing. *)
Definition same_file : args :=
  mk_args 400 24 (Some (lit "top.csv")) (Some (lit "./top.csv")).

Definition resolve_dot (path : pystr) : pystr :=
  match path with
  | 46%N :: 47%N :: r => r
  | _ => path
  end.

(** Two ranked stories; the title of the second needs quoting. *)
Definition top : list Story.t :=
  [story 102 50 9 1699990000 "Ask HN"; story 101 50 5 1699990000 "a, b"].

End Example.

(** ** The pipeline of [hn_top10_daily.py] *)

Section Pipeline.

Set Default Proof Using "Type".

(** The outside world and the interpreter's built-ins. *)

(** [urlopen(Request(url, headers=HEADERS), timeout)], the read of the
    body and [json.loads] of it, for the URL [url]. *)
Variable urlopen : pystr -> response.

(** [int((now_ist - timedelta(hours=h)).astimezone(utc).timestamp())] at
    the instant the collector reads the clock; [None] when the datetime
    arithmetic raises. *)
Variable cutoff_at : Z -> option Z.

(** [datetime.fromtimestamp(t, tz=utc).astimezone(ZoneInfo("Asia/Kolkata"))
    .strftime("%Y-%m-%d %H:%M:%S %Z")]; [None] when it raises. *)
Variable strftime_ist : Z -> option pystr.

(** [int(s)] on a [str]; [None] when it raises. *)
Variable int_of_str : pystr -> option Z.

(** [str(v)] on a float, a list or a dict, when it returns (see
    [str_defined]). *)
Variable str_other : json -> pystr.

(** How many of the calls queued behind the first one that raises the
    pool has started by the time the rest is cancelled (see [pool_map]). *)
Variable ran_ahead : nat.

(** [str(v)], which is also what [format] and an f-string field give. *)
Definition py_str (v : json) : pystr :=
  match v with
  | JNull => lit "None"
  | JBool true => lit "True"
  | JBool false => lit "False"
  | JInt z => str_int z
  | JStr s => s
  | _ => str_other v
  end.

(** [int(v)] *)
Definition py_int (v : json) : outcome Z :=
  match v with
  | JInt z => Returns z
  | JBool b => Returns (if b then 1 else 0)
  | JFloat f => int_of_float f
  | JStr s => of_option (int_of_str s)
  | JNull | JArr _ | JObj _ => Raises
  end.

Definition fetch_json (url : pystr) : logged json :=
  (match urlopen url with
   | Body j => Returns j
   | Caught => Returns JNull
   | Uncaught => Raises
   end, [url]).

Definition get_new_story_ids : logged (list json) :=
  lbind (fetch_json NEW_STORIES_ENDPOINT) (fun data =>
    match data with
    | JArr l => lret l
    | _ => lret []
    end).

(** [ITEM_ENDPOINT.format(id=story_id)] *)
Definition item_url (story_id : json) : pystr :=
  API_BASE ++ lit "/item/" ++ py_str story_id ++ lit ".json".

(** The constructor call of lines 83 to 91 on the items of the record. *)
Definition story_of (data : list (pystr * json)) : outcome Story.t :=
  score <- py_int (py_or (dict_get data (lit "score")) (JInt 0)) ;;
  time <- py_int (py_or (dict_get data (lit "time")) (JInt 0)) ;;
  descendants <- py_int (py_or (dict_get data (lit "descendants")) (JInt 0)) ;;
  Returns (Story.mk
    (dict_get data (lit "id"))
    (py_or (dict_get data (lit "title")) (JStr (lit "(no title)")))
    (dict_get data (lit "url"))
    score
    (py_or (dict_get data (lit "by")) (JStr (lit "unknown")))
    time
    descendants).

(** The fields of a [Story], the key each is read from, and its value
    as a Python object. *)
Inductive field :=
| F_id | F_title | F_url | F_score | F_by | F_time | F_descendants.

Definition field_key (f : field) : pystr :=
  match f with
  | F_id => lit "id"
  | F_title => lit "title"
  | F_url => lit "url"
  | F_score => lit "score"
  | F_by => lit "by"
  | F_time => lit "time"
  | F_descendants => lit "descendants"
  end.

Definition field_value (s : Story.t) (f : field) : json :=
  match f with
  | F_id => Story.id s
  | F_title => Story.title s
  | F_url => Story.url s
  | F_score => JInt (Story.score s)
  | F_by => Story.by_ s
  | F_time => JInt (Story.time s)
  | F_descendants => JInt (Story.descendants s)
  end.

(** A field is given no default at construction when a record without
    its key leaves it [None] in the [Story]. *)
Definition undefaulted (f : field) : Prop :=
  forall items s,
    has_key items (field_key f) = false ->
    story_of items = Returns s ->
    field_value s f = JNull.

(** [get_item] on what [fetch_json] returned. A truthy value that is not
    a dict has no [get]: the call raises. *)
Definition item_of (data : json) : outcome (option Story.t) :=
  if negb (truthy data) then Returns None
  else match data with
       | JObj items =>
           if negb (eq_str (dict_get items (lit "type")) (lit "story"))
           then Returns None
           else s <- story_of items ;; Returns (Some s)
       | _ => Raises
       end.

(** [get_item]: the URL is formatted first, which raises, before any
    request, when [str] of the identifier does. *)
Definition get_item (story_id : json) : logged (option Story.t) :=
  if str_defined story_id then
    lbind (fetch_json (item_url story_id)) (fun data => llift (item_of data))
  else (Raises, []).

(** [human_trunc]. [len] raises on numbers and booleans; a list or a
    dict longer than [max_len] raises at the slice or at the [+]. *)
Definition human_trunc (s : json) (max_len : Z) : outcome json :=
  let s := py_or s (JStr []) in
  match s with
  | JStr cs =>
      Returns (JStr (if len cs <=? max_len then cs
                     else slice_to cs (max_len - 1) ++ [ellipsis]))
  | JArr l => if len l <=? max_len then Returns s else Raises
  | JObj items => if len items <=? max_len then Returns s else Raises
  | _ => Raises
  end.

(** The loop of lines 105 to 107 on the results of the pool. *)
Definition kept (results : list (option Story.t)) : list Story.t :=
  flat_map (fun r => match r with Some s => [s] | None => [] end) results.

Definition collect_top_new (limit window_hours : Z) : logged (list Story.t) :=
  lbind get_new_story_ids (fun all =>
    let ids := slice_to all limit in
    if len ids =? 0 then lret []
    else
      lbind (pool_map ran_ahead get_item ids) (fun results =>
        let stories := kept results in
        llift (cutoff_ts <- of_option (cutoff_at window_hours) ;;
               Returns (rank (recent_of cutoff_ts stories))))).

(** The two properties of [Story]. [hn_link] is the text the property
    returns when it returns; [hn_link_of] is the property, which raises
    when [str] of the identifier does. *)
Definition hn_link (s : Story.t) : pystr :=
  HN_ITEM_PREFIX ++ py_str (Story.id s).

Definition hn_link_of (s : Story.t) : outcome pystr :=
  if str_defined (Story.id s) then Returns (hn_link s) else Raises.

Definition created_at_ist (s : Story.t) : outcome pystr :=
  of_option (strftime_ist (Story.time s)).

(** *** The table *)

Definition NO_STORIES : pystr := lit "No stories found in the specified window.".

Definition headers : list json :=
  map (fun h => JStr (lit h))
    ["#"; "Title"; "Score"; "Comments"; "By"; "Created (IST)"; "HN Link"; "URL"]%string.

Definition table_row (i : Z) (s : Story.t) : outcome (list json) :=
  t <- human_trunc (Story.title s) 80 ;;
  c <- created_at_ist s ;;
  link <- hn_link_of s ;;
  u <- human_trunc (py_or (Story.url s) (JStr link)) 80 ;;
  Returns [JInt i; t; JInt (Story.score s); JInt (Story.descendants s);
           Story.by_ s; JStr c; JStr link; u].

(** The [print] calls of a function, in order, on a standard output that
    encodes as UTF-8: the lines printed when every call returns; a line
    that does not encode makes its call raise. *)
Definition printed (lines : list pystr) : outcome (list pystr) :=
  if forallb encodable lines then Returns lines else Raises.

Definition col_widths (rows : list (list json)) : list Z :=
  map (fun col => max_list (map (fun x => len (py_str x)) col))
      (zip_star headers rows).

Definition fmt_row (widths : list Z) (row : list json) : pystr :=
  join (lit " | ")
       (map (fun vw => ljust (py_str (fst vw)) (snd vw)) (combine row widths)).

(** The arguments of the [print] calls of [print_table], in order, when
    it returns. The rows are all built, and [str] is applied to every
    cell for the widths, before the first call. *)
Definition print_table (stories : list Story.t) : outcome (list pystr) :=
  if len stories =? 0 then printed [NO_STORIES]
  else
    rows <- sequence (map (fun is_ => table_row (fst is_) (snd is_))
                          (enumerate stories 1)) ;;
    if forallb (forallb str_defined) rows then
      let widths := col_widths rows in
      printed (fmt_row widths headers
               :: join (lit "-+-")
                       (map (fun w => repeat 45%N (Z.to_nat w)) widths)
               :: map (fmt_row widths) rows)
    else Raises.

(** *** The exports *)

(** A loop that builds a text per element and writes it. *)
Fixpoint write_each {A} (text : A -> outcome pystr) (l : list A)
         (file : pystr) : outcome pystr :=
  match l with
  | [] => Returns file
  | x :: r => t <- text x ;; file' <- write file t ;; write_each text r file'
  end.

(** A field as the csv writer takes it: [None] is empty, a [str] is
    itself, anything else goes through [str]. *)
Definition csv_field (v : json) : pystr :=
  match v with
  | JNull => []
  | _ => py_str v
  end.

Definition writerow (row : list json) : pystr :=
  csv_record (map csv_field row).

Definition CSV_HEADER : list json :=
  map (fun h => JStr (lit h))
    ["rank"; "id"; "title"; "score"; "comments"; "by"; "created_ist";
     "hn_link"; "url"]%string.

(** The row handed to [writerow], which applies [str] to every cell but
    the strings and [None]. *)
Definition csv_cells (i : Z) (s : Story.t) : outcome (list json) :=
  c <- created_at_ist s ;;
  link <- hn_link_of s ;;
  let cells := [JInt i; Story.id s; Story.title s; JInt (Story.score s);
                JInt (Story.descendants s); Story.by_ s; JStr c;
                JStr link; py_or (Story.url s) (JStr [])] in
  if forallb str_defined cells then Returns cells else Raises.

(** The fields of the row of story [s] at rank [i], as the writer takes
    them, [c] being the rendered creation time. *)
Definition csv_row (i : Z) (s : Story.t) (c : pystr) : list pystr :=
  [str_int i; csv_field (Story.id s); csv_field (Story.title s);
   str_int (Story.score s); str_int (Story.descendants s);
   csv_field (Story.by_ s); c; hn_link s;
   csv_field (py_or (Story.url s) (JStr []))].

Definition CSV_HEADER_TEXT : list pystr :=
  map lit ["rank"; "id"; "title"; "score"; "comments"; "by"; "created_ist";
           "hn_link"; "url"]%string.

(** Whether [str] returns on what the row of a story formats. *)
Definition csv_formats (i : Z) (s : Story.t) : bool :=
  forallb str_defined
          [JInt i; Story.id s; Story.title s; JInt (Story.score s);
           JInt (Story.descendants s); Story.by_ s;
           py_or (Story.url s) (JStr [])].

(** Whether the row of a story can be written: its creation time
    renders, [str] returns on its cells and the text of the row encodes. *)
Definition csv_writable (is_ : Z * Story.t) : bool :=
  match strftime_ist (Story.time (snd is_)) with
  | Some c =>
      csv_formats (fst is_) (snd is_)
      && encodable (csv_record (csv_row (fst is_) (snd is_) c))
  | None => false
  end.

(** The text of the file [write_csv] leaves when it returns. *)
Definition write_csv (stories : list Story.t) : outcome pystr :=
  file <- write [] (writerow CSV_HEADER) ;;
  write_each (fun is_ => row <- csv_cells (fst is_) (snd is_) ;;
                         Returns (writerow row))
             (enumerate stories 1) file.

Definition MD_HEADING : pystr := lit "# Top 10 New Hacker News (last 24h, IST)".

(** One list line, without its newline, [c] being the rendered creation
    time. *)
Definition md_item (i : Z) (s : Story.t) (c : pystr) : pystr :=
  let url := py_or (Story.url s) (JStr (hn_link s)) in
  str_int i ++ lit ". [" ++ py_str (Story.title s) ++ lit "]("
  ++ py_str url ++ lit ") " ++ [emdash] ++ lit " **"
  ++ str_int (Story.score s) ++ lit " points**, "
  ++ str_int (Story.descendants s) ++ lit " comments "
  ++ [emdash] ++ lit " " ++ c ++ lit " " ++ [emdash]
  ++ lit " [HN](" ++ hn_link s ++ lit ")".

(** The f-string of line 160, which formats the rank, the title, the
    URL, the score, the comment count, the creation time and the link. *)
Definition md_line (i : Z) (s : Story.t) : outcome pystr :=
  c <- created_at_ist s ;;
  link <- hn_link_of s ;;
  if forallb str_defined
             [JInt i; Story.title s; py_or (Story.url s) (JStr link);
              JInt (Story.score s); JInt (Story.descendants s)]
  then Returns (md_item i s c)
  else Raises.

(** Whether [str] returns on what the line of a story formats. *)
Definition md_formats (i : Z) (s : Story.t) : bool :=
  forallb str_defined
          [JInt i; Story.id s; Story.title s;
           py_or (Story.url s) (JStr (hn_link s));
           JInt (Story.score s); JInt (Story.descendants s)].

(** Whether the line of a story can be written: its creation time
    renders, [str] returns on what the line formats and the line encodes. *)
Definition md_writable (is_ : Z * Story.t) : bool :=
  match strftime_ist (Story.time (snd is_)) with
  | Some c =>
      md_formats (fst is_) (snd is_)
      && encodable (md_item (fst is_) (snd is_) c ++ [LF])
  | None => false
  end.

(** The text of the file [write_md] leaves when it returns. *)
Definition write_md (stories : list Story.t) : outcome pystr :=
  file <- write [] (MD_HEADING ++ [LF; LF]) ;;
  write_each (fun is_ => l <- md_line (fst is_) (snd is_) ;;
                         Returns (l ++ [LF]))
             (enumerate stories 1) file.

(** *** The entry point *)

(** The file a path names: two paths with the same image open the same
    file (["top.csv"] and ["./top.csv"], or a link and its target). *)
Variable resolve : pystr -> pystr.

(** Whether the operating system lets [open(path, "w", ...)], the writes
    of [text] and the close go through. *)
Variable os_accepts : pystr -> pystr -> bool.

(** The text files of the file system, by the file's identity. *)
Definition files : Type := pystr -> option pystr.

(** The file [path] names replaced by [text], as [open(path, "w")]
    followed by the writes and the close leaves it. *)
Definition put (fs : files) (path text : pystr) : files :=
  fun file => if pystr_eqb file (resolve path) then Some text else fs file.

(** The file [path] names. *)
Definition file_at (fs : files) (path : pystr) : option pystr :=
  fs (resolve path).

(** [print(line)] on the standard output whose text so far is [out]. The
    standard output encodes as UTF-8 and refuses what does not encode. *)
Definition print (out line : pystr) : outcome pystr :=
  write out (line ++ [LF]).

(** The standard output after [print] calls with these arguments. *)
Definition stdout_of (lines : list pystr) : pystr :=
  flat_map (fun l => l ++ [LF]) lines.

(** [if path:] on an optional [str]: given and not empty. *)
Definition given (path : option pystr) : option pystr :=
  match path with
  | Some (c :: p) => Some (c :: p)
  | _ => None
  end.

(** [writer(stories, path)] for one of the two export functions: the file
    is opened, written and closed. The file is opened before the first
    text is built; as a call that raises leaves no state in this model,
    the order of the two failures does not show. *)
Definition export (writer : list Story.t -> outcome pystr)
           (stories : list Story.t) (path : pystr) (fs : files)
  : outcome files :=
  text <- writer stories ;;
  if os_accepts path text then Returns (put fs path text) else Raises.

(** [main] from the parsed command line on: what it has printed and the
    files it leaves, when it returns. What a run that raises has printed
    and written by then is not kept. *)
Definition main (a : args) (fs : files) : logged (pystr * files) :=
  lbind (collect_top_new (args_limit a) (args_window_hours a)) (fun stories =>
    llift (
      lines <- print_table stories ;;
      r <- match given (args_csv a) with
           | Some p =>
               fs' <- export write_csv stories p fs ;;
               out <- print (stdout_of lines)
                            ([LF] ++ lit "Saved CSV to " ++ p) ;;
               Returns (out, fs')
           | None => Returns (stdout_of lines, fs)
           end ;;
      match given (args_md a) with
      | Some p =>
          fs' <- export write_md stories p (snd r) ;;
          out <- print (fst r) (lit "Saved Markdown to " ++ p) ;;
          Returns (out, fs')
      | None => Returns r
      end)).

(** *** Vocabulary of the further properties *)



(** The stories whose sort key is [k]. *)
Definition same_key (k : Z * Z * Z) (s : Story.t) : bool :=
  negb (key_ltb (key s) k) && negb (key_ltb k (key s)).


(** ** Ranking *)

Lemma key_ltb_false (a b : Z * Z * Z) : key_ltb a b = false <-> key_le b a.
Proof.
  destruct a as [[a1 a2] a3], b as [[b1 b2] b3]. unfold key_ltb, key_le.
  rewrite orb_false_iff, andb_false_iff, orb_false_iff, andb_false_iff.
  rewrite !Z.ltb_ge, !Z.eqb_neq. lia.
Qed.

Lemma key_ltb_true (a b : Z * Z * Z) : key_ltb a b = true -> key_le a b.
Proof.
  destruct a as [[a1 a2] a3], b as [[b1 b2] b3]. unfold key_ltb, key_le.
  rewrite orb_true_iff, andb_true_iff, orb_true_iff, andb_true_iff.
  rewrite !Z.ltb_lt, !Z.eqb_eq. lia.
Qed.

Lemma key_le_trans (a b c : Z * Z * Z) : key_le a b -> key_le b c -> key_le a c.
Proof.
  destruct a as [[a1 a2] a3], b as [[b1 b2] b3], c as [[c1 c2] c3].
  unfold key_le. lia.
Qed.

Lemma insert_desc_perm (x : Story.t) (l : list Story.t) :
  Permutation (x :: l) (insert_desc x l).
Proof.
  induction l as [|y r IH]; simpl; [reflexivity|].
  destruct (key_ltb (key x) (key y)); [|reflexivity].
  rewrite perm_swap. now apply perm_skip.
Qed.

Lemma sort_desc_perm (l : list Story.t) : Permutation l (sort_desc l).
Proof.
  induction l as [|x r IH]; simpl; [constructor|].
  rewrite <- insert_desc_perm. now apply perm_skip.
Qed.

Lemma insert_desc_ranked (x : Story.t) (l : list Story.t) :
  ranked l -> ranked (insert_desc x l).
Proof.
  unfold ranked. induction l as [|y r IH]; intros Hs; simpl.
  - repeat constructor.
  - apply StronglySorted_inv in Hs. destruct Hs as [Hr Hy].
    destruct (key_ltb (key x) (key y)) eqn:E.
    + constructor; [now apply IH|].
      rewrite Forall_forall in *. intros z Hz.
      apply (Permutation_in _ (Permutation_sym (insert_desc_perm x r))) in Hz.
      destruct Hz as [<-|Hz]; [now apply key_ltb_true | now apply Hy].
    + apply key_ltb_false in E.
      constructor; [constructor; assumption|].
      constructor; [assumption|].
      rewrite Forall_forall in *. intros z Hz.
      apply key_le_trans with (key y); [now apply Hy | assumption].
Qed.

Lemma sort_desc_ranked (l : list Story.t) : ranked (sort_desc l).
Proof.
  induction l as [|x r IH]; simpl; [constructor|].
  now apply insert_desc_ranked.
Qed.

Lemma firstn_In {A} (n : nat) (l : list A) (x : A) :
  In x (firstn n l) -> In x l.
Proof.
  revert l. induction n as [|n IH]; intros l; [intros []|].
  destruct l as [|y r]; simpl; [intros [] |].
  intros [->|H]; [now left | right; now apply IH].
Qed.

Lemma ranked_firstn (n : nat) (l : list Story.t) : ranked l -> ranked (firstn n l).
Proof.
  unfold ranked. revert l. induction n as [|n IH]; intros l Hs; simpl.
  - constructor.
  - destruct l as [|x r]; [constructor|].
    apply StronglySorted_inv in Hs. destruct Hs as [Hr Hx].
    constructor; [now apply IH|].
    rewrite Forall_forall in *. intros z Hz. apply Hx.
    now apply (firstn_In n).
Qed.

Lemma key_le_antisym (a b : Z * Z * Z) : key_le a b -> key_le b a -> a = b.
Proof.
  destruct a as [[a1 a2] a3], b as [[b1 b2] b3]. unfold key_le.
  intros H1 H2. assert (a1 = b1 /\ a2 = b2 /\ a3 = b3) as (-> & -> & ->) by lia.
  reflexivity.
Qed.

Lemma key_ltb_irrefl (a : Z * Z * Z) : key_ltb a a = false.
Proof.
  apply key_ltb_false. destruct a as [[a1 a2] a3]. unfold key_le. lia.
Qed.

(** The sort is stable: the stories of any one key keep their order. *)
Lemma insert_desc_stable (k : Z * Z * Z) (x : Story.t) (l : list Story.t) :
  let same := fun s => negb (key_ltb (key s) k) && negb (key_ltb k (key s)) in
  filter same (insert_desc x l) = filter same (x :: l).
Proof.
  intros same. induction l as [|y r IH]; [reflexivity|].
  simpl insert_desc. destruct (key_ltb (key x) (key y)) eqn:E; [|reflexivity].
  simpl filter in *. rewrite IH.
  destruct (same x) eqn:Ex; [|reflexivity].
  destruct (same y) eqn:Ey; [|reflexivity].
  exfalso. unfold same in Ex, Ey.
  apply andb_true_iff in Ex, Ey. destruct Ex as [E1 E2], Ey as [E3 E4].
  rewrite negb_true_iff in *.
  apply key_ltb_false in E1, E2, E3, E4.
  rewrite (key_le_antisym _ _ E2 E1), (key_le_antisym _ _ E4 E3) in E.
  rewrite key_ltb_irrefl in E. discriminate.
Qed.

Lemma sort_desc_stable (k : Z * Z * Z) (l : list Story.t) :
  let same := fun s => negb (key_ltb (key s) k) && negb (key_ltb k (key s)) in
  filter same (sort_desc l) = filter same l.
Proof.
  intros same. induction l as [|x r IH]; [reflexivity|].
  simpl sort_desc. unfold same. rewrite insert_desc_stable.
  simpl. fold same. now rewrite IH.
Qed.

(** ** The reader and the collector, case by case *)

Lemma get_item_eq (story_id : json) :
  get_item story_id =
  if str_defined story_id then
    (match urlopen (item_url story_id) with
     | Body j => item_of j
     | Caught => Returns None
     | Uncaught => Raises
     end, [item_url story_id])
  else (Raises, []).
Proof.
  unfold get_item, fetch_json, lbind, llift.
  destruct (str_defined story_id); [|reflexivity].
  destruct (urlopen (item_url story_id)); reflexivity.
Qed.

Lemma get_item_returns (story_id : json) (r : option Story.t) :
  fst (get_item story_id) = Returns r ->
  str_defined story_id = true /\ snd (get_item story_id) = [item_url story_id].
Proof.
  rewrite get_item_eq. destruct (str_defined story_id); simpl;
    [auto | discriminate].
Qed.

Lemma get_new_story_ids_eq :
  get_new_story_ids =
  (match urlopen NEW_STORIES_ENDPOINT with
   | Body (JArr l) => Returns l
   | Body _ | Caught => Returns []
   | Uncaught => Raises
   end, [NEW_STORIES_ENDPOINT]).
Proof.
  unfold get_new_story_ids, fetch_json, lbind, lret.
  destruct (urlopen NEW_STORIES_ENDPOINT) as [[]| |]; reflexivity.
Qed.

Lemma pool_map_results {A B} (ahead : nat) (f : A -> logged B) (xs : list A)
      (rs : list B) :
  fst (pool_map ahead f xs) = Returns rs ->
  Forall2 (fun x r => fst (f x) = Returns r) xs rs.
Proof.
  revert rs. induction xs as [|x r IH]; intros rs; simpl.
  - intros [= <-]. constructor.
  - destruct (f x) as [o l] eqn:Ef. destruct o as [b|]; [|discriminate].
    destruct (pool_map ahead f r) as [os ls].
    simpl in *. destruct os as [bs|]; [|discriminate].
    intros [= <-]. constructor; [now rewrite Ef | now apply IH].
Qed.

(** When every call returns, every call has run. *)
Lemma pool_map_log {A B} (ahead : nat) (f : A -> logged B) (xs : list A)
      (rs : list B) :
  fst (pool_map ahead f xs) = Returns rs ->
  snd (pool_map ahead f xs) = flat_map (fun x => snd (f x)) xs.
Proof.
  revert rs. induction xs as [|x r IH]; intros rs; simpl; [reflexivity|].
  destruct (f x) as [o l] eqn:Ef. destruct o as [b|]; [|discriminate].
  destruct (pool_map ahead f r) as [os ls].
  simpl in *. destruct os as [bs|]; [|discriminate].
  intros _. f_equal. now apply (IH bs).
Qed.



Lemma pool_map_get_item_log (ids : list json) (rs : list (option Story.t)) :
  fst (pool_map ran_ahead get_item ids) = Returns rs ->
  snd (pool_map ran_ahead get_item ids) = map item_url ids.
Proof.
  intros H. rewrite (pool_map_log _ _ _ _ H).
  apply pool_map_results in H. clear -H.
  induction H as [|x r xs rs' Hx _ IH]; [reflexivity|].
  simpl. rewrite IH. apply get_item_returns in Hx.
  destruct Hx as [_ ->]. reflexivity.
Qed.

Lemma kept_In (results : list (option Story.t)) (s : Story.t) :
  In s (kept results) <-> In (Some s) results.
Proof.
  unfold kept. rewrite in_flat_map. split.
  - intros ([s'|] & Hin & Hs); simpl in Hs; [|destruct Hs].
    destruct Hs as [->|[]]. assumption.
  - intros Hin. exists (Some s). split; [assumption | now left].
Qed.

Lemma len_eqb_0 {A} (l : list A) : (len l =? 0) = true <-> l = [].
Proof.
  unfold len. rewrite Z.eqb_eq. destruct l; simpl; split; intros H;
    try reflexivity; try discriminate; lia.
Qed.

(** Every way the collector returns. *)
Lemma collect_top_new_cases (limit window_hours : Z) (out : list Story.t)
      (log : list pystr) :
  collect_top_new limit window_hours = (Returns out, log) ->
  exists all, fst get_new_story_ids = Returns all /\
    ((slice_to all limit = [] /\ out = [] /\ log = [NEW_STORIES_ENDPOINT]) \/
     (slice_to all limit <> [] /\
      exists results cutoff_ts,
        fst (pool_map ran_ahead get_item (slice_to all limit))
        = Returns results /\
        cutoff_at window_hours = Some cutoff_ts /\
        out = rank (recent_of cutoff_ts (kept results)) /\
        log = NEW_STORIES_ENDPOINT :: map item_url (slice_to all limit))).
Proof.
  unfold collect_top_new. rewrite get_new_story_ids_eq.
  set (o := match urlopen NEW_STORIES_ENDPOINT with
            | Body (JArr l) => Returns l
            | Body _ | Caught => Returns []
            | Uncaught => Raises
            end).
  destruct o as [all|]; simpl; [|discriminate].
  intros H. exists all. split; [reflexivity|].
  destruct (len (slice_to all limit) =? 0) eqn:E.
  - apply len_eqb_0 in E. left. unfold lret in H.
    injection H as <- <-. auto.
  - right. split.
    { intros Hnil. apply len_eqb_0 in Hnil. congruence. }
    pose proof (pool_map_get_item_log (slice_to all limit)) as Hlog.
    unfold lbind in H.
    destruct (pool_map ran_ahead get_item (slice_to all limit))
      as [[results|] l2]; simpl in *; [|discriminate].
    unfold llift in H.
    destruct (cutoff_at window_hours) as [c|]; simpl in H; [|discriminate].
    injection H as <- <-. exists results, c.
    rewrite (Hlog results eq_refl), app_nil_r. auto.
Qed.

Lemma rank_ranked (recent : list Story.t) :
  ranked (rank recent) /\ (List.length (rank recent) <= 10)%nat.
Proof.
  unfold rank. split.
  - apply ranked_firstn, sort_desc_ranked.
  - apply firstn_le_length.
Qed.

Lemma rank_In (recent : list Story.t) (s : Story.t) :
  In s (rank recent) -> In s recent.
Proof.
  unfold rank. intros H. apply firstn_In in H.
  apply (Permutation_in _ (Permutation_sym (sort_desc_perm recent))), H.
Qed.

Lemma recent_of_In (cutoff_ts : Z) (stories : list Story.t) (s : Story.t) :
  In s (recent_of cutoff_ts stories) <->
  In s stories /\ cutoff_ts <= Story.time s.
Proof.
  unfold recent_of. rewrite filter_In, Z.geb_le. reflexivity.
Qed.

(** ** The claims about the collector *)

(** The order of [ranked], on the fields of the stories. *)
Lemma ranked_fields (l : list Story.t) :
  ranked l <->
  StronglySorted
    (fun x y =>
       Story.score y < Story.score x \/
       (Story.score y = Story.score x /\
        (Story.descendants y < Story.descendants x \/
         (Story.descendants y = Story.descendants x /\
          Story.time y <= Story.time x)))) l.
Proof. reflexivity. Qed.

Lemma rank_scenario (s1 s2 s3 : Story.t) (t : Z) :
  key s1 = (50, 5, t) -> key s2 = (50, 9, t) -> key s3 = (30, 100, t) ->
  rank [s1; s2; s3] = [s2; s1; s3].
Proof.
  intros H1 H2 H3.
  assert (E23 : key_ltb (key s2) (key s3) = false)
    by (rewrite H2, H3; reflexivity).
  assert (E12 : key_ltb (key s1) (key s2) = true)
    by (rewrite H1, H2; reflexivity).
  assert (E13 : key_ltb (key s1) (key s3) = false)
    by (rewrite H1, H3; reflexivity).
  unfold rank. simpl. rewrite E23. simpl. rewrite E12. simpl.
  rewrite E13. reflexivity.
Qed.

(** C1: whatever stories are retained after filtering, lines 116 and 117
    return them ordered by score, the greater first; among equal scores
    by comment count, the greater first; among equal scores and comment
    counts by creation timestamp, the later first. They return ten at
    most, the first ten of the stable sort of the retained list; so is
    every list the collector returns ordered and bounded. Stories with
    scores 50, 50, 30 and comment counts 5, 9, 100 at one creation time
    come out as 50/9, then 50/5, then 30/100. *)
Theorem collect_top_new_ranked :
  (forall recent : list Story.t,
      StronglySorted
        (fun x y =>
           Story.score y < Story.score x \/
           (Story.score y = Story.score x /\
            (Story.descendants y < Story.descendants x \/
             (Story.descendants y = Story.descendants x /\
              Story.time y <= Story.time x))))
        (rank recent) /\
      (List.length (rank recent) <= 10)%nat /\
      rank recent = firstn 10 (sort_desc recent) /\
      Permutation recent (sort_desc recent)) /\
  (forall (limit window_hours : Z) (out : list Story.t) (log : list pystr),
      collect_top_new limit window_hours = (Returns out, log) ->
      StronglySorted
        (fun x y =>
           Story.score y < Story.score x \/
           (Story.score y = Story.score x /\
            (Story.descendants y < Story.descendants x \/
             (Story.descendants y = Story.descendants x /\
              Story.time y <= Story.time x))))
        out /\
      (List.length out <= 10)%nat) /\
  (forall (s1 s2 s3 : Story.t) (t : Z),
      Story.score s1 = 50 -> Story.descendants s1 = 5 -> Story.time s1 = t ->
      Story.score s2 = 50 -> Story.descendants s2 = 9 -> Story.time s2 = t ->
      Story.score s3 = 30 -> Story.descendants s3 = 100 ->
      Story.time s3 = t ->
      rank [s1; s2; s3] = [s2; s1; s3]).
Proof.
  split; [|split].
  - intros recent. destruct (rank_ranked recent) as [H1 H2].
    split; [now apply ranked_fields|].
    repeat split; try assumption. apply sort_desc_perm.
  - intros limit wh out log H.
    apply collect_top_new_cases in H.
    destruct H as (all & _ & [(_ & -> & _) | (_ & results & c & _ & _ & -> & _)]).
    + split; [constructor | simpl; lia].
    + destruct (rank_ranked (recent_of c (kept results))) as [H1 H2].
      split; [now apply ranked_fields | assumption].
  - intros s1 s2 s3 t A1 A2 A3 B1 B2 B3 C1 C2 C3.
    apply (rank_scenario s1 s2 s3 t); unfold key; congruence.
Qed.

(** C2: the window filter of line 113 keeps exactly the stories whose
    creation timestamp is at least the cutoff: a story created at the
    cutoff second is kept, one created a second earlier is dropped, and
    every story the collector returns was created at or after the cutoff
    the clock gave. *)
Theorem recent_of_inclusive :
  (forall (stories : list Story.t) (cutoff_ts : Z) (s : Story.t),
      In s (recent_of cutoff_ts stories) <->
      In s stories /\ cutoff_ts <= Story.time s) /\
  (forall (stories : list Story.t) (cutoff_ts : Z) (s : Story.t),
      In s stories -> Story.time s = cutoff_ts ->
      In s (recent_of cutoff_ts stories)) /\
  (forall (stories : list Story.t) (cutoff_ts : Z) (s : Story.t),
      Story.time s = cutoff_ts - 1 ->
      ~ In s (recent_of cutoff_ts stories)) /\
  (forall (limit window_hours cutoff_ts : Z) (out : list Story.t)
          (log : list pystr),
      collect_top_new limit window_hours = (Returns out, log) ->
      cutoff_at window_hours = Some cutoff_ts ->
      forall s, In s out -> cutoff_ts <= Story.time s).
Proof.
  split; [|split; [|split]].
  - intros stories c s. apply recent_of_In.
  - intros stories c s Hin Ht. apply recent_of_In. split; [assumption | lia].
  - intros stories c s Ht Hin. apply recent_of_In in Hin. lia.
  - intros limit wh c out log H Hc s Hin.
    apply collect_top_new_cases in H.
    destruct H as (all & _ & [(_ & -> & _) | (_ & results & c' & _ & Hc' & -> & _)]).
    + destruct Hin.
    + rewrite Hc in Hc'. injection Hc' as <-.
      apply rank_In, recent_of_In in Hin. apply Hin.
Qed.

(** ** The story reader *)

Lemma dict_get_absent (items : list (pystr * json)) (k : pystr) :
  has_key items k = false -> dict_get items k = JNull.
Proof.
  induction items as [|[k' v] r IH]; simpl; [reflexivity|].
  destruct (pystr_eqb k' k); simpl; [discriminate | exact IH].
Qed.

Lemma py_or_truthy (a d : json) : truthy d = true -> truthy (py_or a d) = true.
Proof. unfold py_or. destruct (truthy a) eqn:E; auto. Qed.

(** What the constructor call returns, when it returns. *)
Lemma story_of_returns (items : list (pystr * json)) (s : Story.t) :
  story_of items = Returns s <->
  py_int (py_or (dict_get items (lit "score")) (JInt 0)) = Returns (Story.score s) /\
  py_int (py_or (dict_get items (lit "time")) (JInt 0)) = Returns (Story.time s) /\
  py_int (py_or (dict_get items (lit "descendants")) (JInt 0))
    = Returns (Story.descendants s) /\
  Story.id s = dict_get items (lit "id") /\
  Story.title s = py_or (dict_get items (lit "title")) (JStr (lit "(no title)")) /\
  Story.url s = dict_get items (lit "url") /\
  Story.by_ s = py_or (dict_get items (lit "by")) (JStr (lit "unknown")).
Proof.
  unfold story_of.
  destruct (py_int (py_or (dict_get items (lit "score")) (JInt 0))) as [sc|];
    simpl; [|split; [discriminate | intros (H & _); discriminate]].
  destruct (py_int (py_or (dict_get items (lit "time")) (JInt 0))) as [tm|];
    simpl; [|split; [discriminate | intros (_ & H & _); discriminate]].
  destruct (py_int (py_or (dict_get items (lit "descendants")) (JInt 0))) as [ds|];
    simpl; [|split; [discriminate | intros (_ & _ & H & _); discriminate]].
  split.
  - intros [= <-]. simpl. repeat split; reflexivity.
  - destruct s as [i t u sc' b tm' ds']. simpl.
    intros ([= ->] & [= ->] & [= ->] & -> & -> & -> & ->). reflexivity.
Qed.

Lemma item_of_story (items : list (pystr * json)) :
  eq_str (dict_get items (lit "type")) (lit "story") = true ->
  item_of (JObj items) = (s <- story_of items ;; Returns (Some s)).
Proof.
  intros Ht. unfold item_of.
  assert (Htr : truthy (JObj items) = true).
  { destruct items as [|kv r]; [discriminate Ht|].
    unfold truthy, len. apply negb_true_iff, Z.eqb_neq.
    change (List.length (kv :: r)) with (S (List.length r)). lia. }
  rewrite Htr, Ht. reflexivity.
Qed.

Lemma item_of_not_story (items : list (pystr * json)) :
  eq_str (dict_get items (lit "type")) (lit "story") = false ->
  item_of (JObj items) = Returns None.
Proof.
  intros Ht. unfold item_of.
  destruct (negb (truthy (JObj items))); [reflexivity|].
  rewrite Ht. reflexivity.
Qed.

Lemma get_item_some_inv (story_id : json) (s : Story.t) :
  fst (get_item story_id) = Returns (Some s) ->
  exists items,
    urlopen (item_url story_id) = Body (JObj items) /\
    eq_str (dict_get items (lit "type")) (lit "story") = true /\
    story_of items = Returns s.
Proof.
  rewrite get_item_eq. destruct (str_defined story_id); [|discriminate].
  simpl.
  destruct (urlopen (item_url story_id)) as [j| |] eqn:Eu; try discriminate.
  unfold item_of. destruct (negb (truthy j)); [discriminate|].
  destruct j as [ | | | | | |items]; try discriminate.
  destruct (eq_str (dict_get items (lit "type")) (lit "story")) eqn:Et;
    simpl; [|discriminate].
  destruct (story_of items) as [s'|] eqn:Es; simpl; [|discriminate].
  intros [= <-]. exists items. auto.
Qed.

Lemma story_of_empty :
  story_of [] =
  Returns (Story.mk JNull (JStr (lit "(no title)")) JNull 0
                    (JStr (lit "unknown")) 0 0).
Proof. reflexivity. Qed.

Lemma story_of_raises (items : list (pystr * json)) :
  story_of items = Raises <->
  py_int (py_or (dict_get items (lit "score")) (JInt 0)) = Raises \/
  py_int (py_or (dict_get items (lit "time")) (JInt 0)) = Raises \/
  py_int (py_or (dict_get items (lit "descendants")) (JInt 0)) = Raises.
Proof.
  unfold story_of.
  destruct (py_int (py_or (dict_get items (lit "score")) (JInt 0))) as [sc|];
    simpl; [|split; auto].
  destruct (py_int (py_or (dict_get items (lit "time")) (JInt 0))) as [tm|];
    simpl; [|split; auto].
  destruct (py_int (py_or (dict_get items (lit "descendants")) (JInt 0)))
    as [ds|]; simpl; [|split; auto].
  split; [discriminate|]. intros [H|[H|H]]; discriminate.
Qed.

(** C3: [get_item] formats the URL first and raises, with no request
    made, when [str] of the identifier raises. Otherwise it returns
    nothing when [fetch_json] returns nothing, which is when the fetch
    fails with one of the errors [fetch_json] catches or the body is
    [null], when the body is another falsy value, and when the record's
    type is not "story"; it raises when the fetch fails with any other
    error, when the body is a truthy value that is not an object, and
    when [int] rejects the score, the time or the descendants of a story
    record. For a story record whose score, time and descendants are
    values [int] converts (an absent one always is), it returns the Story
    read field by field, with the placeholder title, the author "unknown"
    and the zeros in place of absent fields. *)
Theorem get_item_defaults (story_id : json) :
  (str_defined story_id = false -> get_item story_id = (Raises, [])) /\
  (str_defined story_id = true ->
   (urlopen (item_url story_id) = Caught ->
    fst (get_item story_id) = Returns None) /\
   (urlopen (item_url story_id) = Uncaught ->
    fst (get_item story_id) = Raises) /\
   (urlopen (item_url story_id) = Body JNull ->
    fst (get_item story_id) = Returns None) /\
   (forall j,
       urlopen (item_url story_id) = Body j ->
       (truthy j = false -> fst (get_item story_id) = Returns None) /\
       (truthy j = true -> (forall items, j <> JObj items) ->
        fst (get_item story_id) = Raises)) /\
   (forall items,
       urlopen (item_url story_id) = Body (JObj items) ->
       (eq_str (dict_get items (lit "type")) (lit "story") = false ->
        fst (get_item story_id) = Returns None) /\
       (eq_str (dict_get items (lit "type")) (lit "story") = true ->
        (py_int (py_or (dict_get items (lit "score")) (JInt 0)) = Raises \/
         py_int (py_or (dict_get items (lit "time")) (JInt 0)) = Raises \/
         py_int (py_or (dict_get items (lit "descendants")) (JInt 0)) = Raises ->
         fst (get_item story_id) = Raises) /\
        forall score time descendants,
          py_int (py_or (dict_get items (lit "score")) (JInt 0)) = Returns score ->
          py_int (py_or (dict_get items (lit "time")) (JInt 0)) = Returns time ->
          py_int (py_or (dict_get items (lit "descendants")) (JInt 0))
            = Returns descendants ->
          let s := Story.mk
                     (dict_get items (lit "id"))
                     (py_or (dict_get items (lit "title")) (JStr (lit "(no title)")))
                     (dict_get items (lit "url"))
                     score
                     (py_or (dict_get items (lit "by")) (JStr (lit "unknown")))
                     time
                     descendants in
          fst (get_item story_id) = Returns (Some s) /\
          (has_key items (lit "title") = false ->
           Story.title s = JStr (lit "(no title)")) /\
          (has_key items (lit "by") = false ->
           Story.by_ s = JStr (lit "unknown")) /\
          (has_key items (lit "score") = false -> Story.score s = 0) /\
          (has_key items (lit "time") = false -> Story.time s = 0) /\
          (has_key items (lit "descendants") = false ->
           Story.descendants s = 0)))).
Proof.
  rewrite get_item_eq. split.
  { intros ->. reflexivity. }
  intros ->. simpl. split; [|split; [|split; [|split]]].
  - intros ->. reflexivity.
  - intros ->. reflexivity.
  - intros ->. reflexivity.
  - intros j ->. unfold item_of. split.
    + intros ->. reflexivity.
    + intros -> Hj. destruct j as [ | | | | | |items]; try reflexivity.
      exfalso. now apply (Hj items).
  - intros items ->. split.
    + apply item_of_not_story.
    + intros Ht. rewrite (item_of_story _ Ht). split.
      { intros Hr. apply story_of_raises in Hr. now rewrite Hr. }
      intros sc tm ds Hsc Htm Hds. cbv zeta.
      unfold story_of.
      rewrite Hsc, Htm, Hds. simpl. split; [reflexivity|].
      repeat split; intros Habs; apply dict_get_absent in Habs.
      * now rewrite Habs.
      * now rewrite Habs.
      * rewrite Habs in Hsc. simpl in Hsc. congruence.
      * rewrite Habs in Htm. simpl in Htm. congruence.
      * rewrite Habs in Hds. simpl in Hds. congruence.
Qed.

(** C5: a Story that [get_item] constructs has a title that is truthy,
    so never the empty string; its score and descendant count are the
    integers [int] made of the record's values, non-negative when the
    record's value is absent, [None] or a non-negative integer; and the
    collector hands every Story out as [get_item] constructed it, for a
    URL it requested. *)
Theorem story_invariants :
  (forall (story_id : json) (s : Story.t),
      fst (get_item story_id) = Returns (Some s) ->
      exists items,
        urlopen (item_url story_id) = Body (JObj items) /\
        truthy (Story.title s) = true /\
        (forall t, Story.title s = JStr t -> t <> []) /\
        py_int (py_or (dict_get items (lit "score")) (JInt 0))
          = Returns (Story.score s) /\
        py_int (py_or (dict_get items (lit "descendants")) (JInt 0))
          = Returns (Story.descendants s) /\
        (dict_get items (lit "score") = JNull \/
         (exists z, dict_get items (lit "score") = JInt z /\ 0 <= z) ->
         0 <= Story.score s) /\
        (dict_get items (lit "descendants") = JNull \/
         (exists z, dict_get items (lit "descendants") = JInt z /\ 0 <= z) ->
         0 <= Story.descendants s)) /\
  (forall (limit window_hours : Z) (out : list Story.t) (log : list pystr),
      collect_top_new limit window_hours = (Returns out, log) ->
      forall s, In s out ->
      exists story_id,
        In (item_url story_id) log /\
        fst (get_item story_id) = Returns (Some s)).
Proof.
  split.
  - intros story_id s H. apply get_item_some_inv in H.
    destruct H as (items & Hu & _ & Hs). exists items.
    apply story_of_returns in Hs.
    destruct Hs as (Hsc & _ & Hds & _ & Ht & _ & _).
    split; [assumption|].
    assert (Htr : truthy (Story.title s) = true)
      by (rewrite Ht; now apply py_or_truthy).
    split; [assumption|]. split.
    { intros t Et ->. rewrite Et in Htr. discriminate. }
    split; [assumption|]. split; [assumption|]. split.
    + intros [E|(z & E & Hz)]; rewrite E in Hsc.
      * simpl in Hsc. injection Hsc as <-. lia.
      * unfold py_or in Hsc. destruct (truthy (JInt z));
          simpl in Hsc; injection Hsc as <-; lia.
    + intros [E|(z & E & Hz)]; rewrite E in Hds.
      * simpl in Hds. injection Hds as <-. lia.
      * unfold py_or in Hds. destruct (truthy (JInt z));
          simpl in Hds; injection Hds as <-; lia.
  - intros limit wh out log H s Hin.
    apply collect_top_new_cases in H.
    destruct H as (all & _ & [(_ & -> & _) | (_ & results & c & Hp & _ & -> & ->)]).
    + destruct Hin.
    + apply rank_In, recent_of_In in Hin. destruct Hin as [Hin _].
      apply kept_In in Hin. apply pool_map_results in Hp.
      revert Hin. induction Hp as [|x r xs rs Hx Hrest IH]; intros Hin.
      * destruct Hin.
      * destruct Hin as [->|Hin].
        -- exists x. split; [right; now left | assumption].
        -- destruct (IH Hin) as (sid & Hl & Hg). exists sid.
           split; [|assumption].
           destruct Hl as [Hl|Hl]; [now left | right; now right].
Qed.

Lemma undefaulted_id : undefaulted F_id.
Proof.
  intros items s Habs Hs. apply story_of_returns in Hs.
  destruct Hs as (_ & _ & _ & Hid & _). simpl.
  rewrite Hid. now apply dict_get_absent.
Qed.

Lemma undefaulted_url : undefaulted F_url.
Proof.
  intros items s Habs Hs. apply story_of_returns in Hs.
  destruct Hs as (_ & _ & _ & _ & _ & Hu & _). simpl.
  rewrite Hu. now apply dict_get_absent.
Qed.

Lemma undefaulted_only (f : field) : undefaulted f -> f = F_id \/ f = F_url.
Proof.
  intros H. pose proof (H [] _ eq_refl story_of_empty) as E.
  destruct f; simpl in E; auto; discriminate.
Qed.

(** C10: a story record without an "id" key still makes a Story: its
    identifier is [None] and its [hn_link] ends in "id=None". The
    identifier and the URL are the two fields given no default at
    construction. *)
Theorem get_item_missing_id :
  (forall (story_id : json) (items : list (pystr * json)) (s : Story.t),
      urlopen (item_url story_id) = Body (JObj items) ->
      has_key items (lit "id") = false ->
      fst (get_item story_id) = Returns (Some s) ->
      Story.id s = JNull /\
      hn_link s = lit "https://news.ycombinator.com/item?id=None") /\
  (exists (items : list (pystr * json)) (s : Story.t),
      eq_str (dict_get items (lit "type")) (lit "story") = true /\
      has_key items (lit "id") = false /\
      item_of (JObj items) = Returns (Some s) /\
      Story.id s = JNull /\
      hn_link s = lit "https://news.ycombinator.com/item?id=None") /\
  (forall f : field, undefaulted f <-> f = F_id \/ f = F_url).
Proof.
  split; [|split].
  - intros story_id items s Hu Habs H.
    apply get_item_some_inv in H. destruct H as (items' & Hu' & _ & Hs).
    rewrite Hu in Hu'. injection Hu' as <-.
    apply story_of_returns in Hs. destruct Hs as (_ & _ & _ & Hid & _).
    assert (E : Story.id s = JNull)
      by (rewrite Hid; now apply dict_get_absent).
    split; [assumption|]. unfold hn_link. rewrite E. reflexivity.
  - exists [(lit "type", JStr (lit "story"))].
    eexists. repeat split.
  - intros f. split; [apply undefaulted_only|].
    intros [->| ->]; [apply undefaulted_id | apply undefaulted_url].
Qed.

(** ** The csv reader on what the csv writer wrote *)

Import CsvReader.

Lemma run_app (r : CsvReader.t) (a b : pystr) :
  run r (a ++ b) =
  match run r a with
  | Some r' => run r' b
  | None => None
  end.
Proof.
  revert r. induction a as [|c a IH]; intros r; simpl; [reflexivity|].
  destruct (feed r c); [apply IH | reflexivity].
Qed.

Lemma run_cons (r : CsvReader.t) (c : N) (rest : pystr) :
  run r (c :: rest) =
  match feed r c with
  | Some r' => run r' rest
  | None => None
  end.
Proof. reflexivity. Qed.

Lemma csv_special_false (c : N) :
  csv_special c = false ->
  (c =? COMMA)%N = false /\ (c =? DQUOTE)%N = false /\
  (c =? CR)%N = false /\ (c =? LF)%N = false.
Proof.
  unfold csv_special. rewrite !orb_false_iff.
  intros [[[H1 H2] H3] H4]. auto.
Qed.

Lemma len_app {A} (a b : list A) : len (a ++ b) = len a + len b.
Proof. unfold len. rewrite length_app. lia. Qed.

Lemma len_nonneg {A} (a : list A) : 0 <= len a.
Proof. unfold len. lia. Qed.

Lemma len_cons {A} (x : A) (a : list A) : len (x :: a) = 1 + len a.
Proof. unfold len. cbn [List.length]. lia. Qed.

Lemma add_char_ok (r : CsvReader.t) (c : N) :
  len (field r) < FIELD_LIMIT ->
  add_char r c = Some (mk (st r) (field r ++ [c]) (fields r) (records r) (pos r)).
Proof.
  intros H. unfold add_char.
  destruct (FIELD_LIMIT <=? len (field r)) eqn:E; [|reflexivity].
  apply Z.leb_le in E. lia.
Qed.

Lemma add_char_full (r : CsvReader.t) (c : N) :
  FIELD_LIMIT <= len (field r) -> add_char r c = None.
Proof.
  intros H. unfold add_char. apply Z.leb_le in H. now rewrite H.
Qed.

(** An unquoted field, character by character. *)
Lemma run_plain (f fld : pystr) (flds : list pystr)
      (recs : list (list pystr)) :
  existsb csv_special f = false ->
  len (fld ++ f) <= FIELD_LIMIT ->
  run (mk IN_FIELD fld flds recs Inside) f =
  Some (mk IN_FIELD (fld ++ f) flds recs Inside).
Proof.
  revert fld. induction f as [|c f IH]; intros fld H Hl.
  - simpl. now rewrite app_nil_r.
  - simpl in H. apply orb_false_iff in H. destruct H as [Hc Hf].
    apply csv_special_false in Hc. destruct Hc as (H1 & H2 & H3 & H4).
    assert (Hfld : len fld < FIELD_LIMIT).
    { rewrite len_app, len_cons in Hl. pose proof (len_nonneg f). lia. }
    rewrite run_cons.
    unfold feed, feed_in_line, process_char, is_nl. cbn [pos st].
    rewrite H1, H3, H4. cbn [orb]. rewrite add_char_ok by assumption.
    unfold set_pos. cbn [st field fields records pos].
    rewrite IH; [now rewrite <- app_assoc | assumption |].
    now rewrite <- app_assoc.
Qed.

(** One character inside a quoted field, other than the quote. *)
Lemma feed_quoted (c : N) (fld : pystr) (flds : list pystr)
      (recs : list (list pystr)) (p : line) :
  (c =? DQUOTE)%N = false ->
  len fld < FIELD_LIMIT ->
  exists p',
    feed (mk IN_QUOTED_FIELD fld flds recs p) c =
    Some (mk IN_QUOTED_FIELD (fld ++ [c]) flds recs p').
Proof.
  intros Hq Hl.
  assert (Ha : forall p0, add_char (mk IN_QUOTED_FIELD fld flds recs p0) c
               = Some (mk IN_QUOTED_FIELD (fld ++ [c]) flds recs p0))
    by (intros p0; now apply add_char_ok).
  assert (He : end_line (mk IN_QUOTED_FIELD fld flds recs p)
               = mk IN_QUOTED_FIELD fld flds recs Between) by reflexivity.
  unfold feed, feed_in_line, process_char. cbn [pos st].
  destruct p; rewrite ?He; cbn [pos st]; rewrite ?Hq, ?Ha;
    destruct (c =? LF)%N eqn:E1; rewrite ?Hq, ?Ha, ?E1;
    try destruct (c =? CR)%N eqn:E2; eexists; reflexivity.
Qed.

(** A quote inside a quoted field, doubled by the writer. *)
Lemma feed_doubled (fld : pystr) (flds : list pystr)
      (recs : list (list pystr)) (p : line) (rest : pystr) :
  len fld < FIELD_LIMIT ->
  run (mk IN_QUOTED_FIELD fld flds recs p) (DQUOTE :: DQUOTE :: rest) =
  run (mk IN_QUOTED_FIELD (fld ++ [DQUOTE]) flds recs Inside) rest.
Proof.
  intros Hl.
  assert (H1 : feed (mk IN_QUOTED_FIELD fld flds recs p) DQUOTE
               = Some (mk QUOTE_IN_QUOTED_FIELD fld flds recs Inside))
    by (destruct p; reflexivity).
  assert (H2 : feed (mk QUOTE_IN_QUOTED_FIELD fld flds recs Inside) DQUOTE
               = Some (mk IN_QUOTED_FIELD (fld ++ [DQUOTE]) flds recs Inside)).
  { unfold feed, feed_in_line, process_char. cbn [pos st].
    change (DQUOTE =? DQUOTE)%N with true. cbn iota.
    rewrite add_char_ok by assumption. reflexivity. }
  now rewrite run_cons, H1, run_cons, H2.
Qed.

Lemma run_doubled (f fld : pystr) (flds : list pystr)
      (recs : list (list pystr)) (p : line) :
  len (fld ++ f) <= FIELD_LIMIT ->
  exists p',
    run (mk IN_QUOTED_FIELD fld flds recs p) (csv_double f) =
    Some (mk IN_QUOTED_FIELD (fld ++ f) flds recs p').
Proof.
  revert fld p. induction f as [|c f IH]; intros fld p Hl.
  - exists p. simpl. now rewrite app_nil_r.
  - assert (Hfld : len fld < FIELD_LIMIT).
    { rewrite len_app, len_cons in Hl. pose proof (len_nonneg f). lia. }
    assert (Hl' : len ((fld ++ [c]) ++ f) <= FIELD_LIMIT)
      by now rewrite <- app_assoc.
    simpl csv_double. destruct (c =? DQUOTE)%N eqn:Hq.
    + apply N.eqb_eq in Hq. subst c. rewrite feed_doubled by assumption.
      destruct (IH (fld ++ [DQUOTE]) Inside Hl') as [p' Hp'].
      exists p'. rewrite Hp', <- app_assoc. reflexivity.
    + destruct (feed_quoted c fld flds recs p Hq Hfld) as [p1 H1].
      rewrite run_cons, H1.
      destruct (IH (fld ++ [c]) p1 Hl') as [p' Hp'].
      exists p'. rewrite Hp', <- app_assoc. reflexivity.
Qed.

Lemma run_field (s : state) (p : line) (f : pystr) (flds : list pystr)
      (recs : list (list pystr)) :
  s = START_RECORD \/ s = START_FIELD ->
  p = Between \/ p = Inside ->
  len f <= FIELD_LIMIT ->
  run (mk s [] flds recs p) (csv_quote f) = Some (after_field s f flds recs p).
Proof.
  intros Hs Hp Hl. unfold csv_quote, after_field.
  destruct (existsb csv_special f) eqn:E.
  - assert (H1 : feed (mk s [] flds recs p) DQUOTE =
                 Some (mk IN_QUOTED_FIELD [] flds recs Inside))
      by (destruct Hs as [-> | ->], Hp as [-> | ->]; reflexivity).
    cbn [app]. rewrite run_cons, H1, run_app.
    destruct (run_doubled f [] flds recs Inside Hl) as [p' Hp'].
    rewrite Hp'. cbn [app]. destruct p'; reflexivity.
  - destruct f as [|c f]; [reflexivity|].
    simpl in E. apply orb_false_iff in E. destruct E as [Hc Hf].
    apply csv_special_false in Hc. destruct Hc as (H1 & H2 & H3 & H4).
    assert (H : feed (mk s [] flds recs p) c =
                Some (mk IN_FIELD [c] flds recs Inside)).
    { unfold feed, feed_in_line, process_char, is_nl.
      destruct Hs as [-> | ->], Hp as [-> | ->]; cbn [pos st];
        rewrite H1, H2, H3, H4; cbn [orb];
        rewrite add_char_ok by reflexivity; reflexivity. }
    rewrite run_cons, H. now rewrite run_plain.
Qed.

Lemma feed_comma (s : state) (p : line) (f : pystr) (flds : list pystr)
      (recs : list (list pystr)) :
  s = START_RECORD \/ s = START_FIELD ->
  p = Between \/ p = Inside ->
  feed (after_field s f flds recs p) COMMA =
  Some (mk START_FIELD [] (flds ++ [f]) recs Inside).
Proof.
  intros Hs Hp. unfold after_field.
  destruct (existsb csv_special f); [reflexivity|].
  destruct f; [|reflexivity].
  destruct Hs as [-> | ->], Hp as [-> | ->]; reflexivity.
Qed.

Lemma run_crlf (f : pystr) (flds : list pystr) (recs : list (list pystr)) :
  run (after_field START_FIELD f flds recs Inside) [CR; LF] =
  Some (mk START_RECORD [] [] (recs ++ [flds ++ [f]]) Between).
Proof.
  unfold after_field.
  destruct (existsb csv_special f); [reflexivity|].
  destruct f; reflexivity.
Qed.

Lemma run_fields (fs : list pystr) (flds : list pystr)
      (recs : list (list pystr)) :
  fs <> [] ->
  within_limit fs ->
  run (mk START_FIELD [] flds recs Inside)
      (join [COMMA] (map csv_quote fs) ++ [CR; LF]) =
  Some (mk START_RECORD [] [] (recs ++ [flds ++ fs]) Between).
Proof.
  revert flds. induction fs as [|f fs IH]; intros flds Hne Hl; [congruence|].
  apply Forall_cons_iff in Hl. destruct Hl as [Hf Hl].
  destruct fs as [|f2 fs].
  - simpl join. rewrite run_app, run_field by auto. apply run_crlf.
  - change (join [COMMA] (map csv_quote (f :: f2 :: fs)) ++ [CR; LF]) with
      ((csv_quote f ++ COMMA :: join [COMMA] (map csv_quote (f2 :: fs)))
       ++ [CR; LF]).
    rewrite <- app_assoc, run_app, run_field by auto.
    rewrite <- app_comm_cons, run_cons, feed_comma by auto.
    rewrite IH by (discriminate || assumption). now rewrite <- app_assoc.
Qed.

Lemma run_record (f : pystr) (fs : list pystr) (recs : list (list pystr)) :
  fs <> [] ->
  within_limit (f :: fs) ->
  run (mk START_RECORD [] [] recs Between) (csv_record (f :: fs)) =
  Some (mk START_RECORD [] [] (recs ++ [f :: fs]) Between).
Proof.
  intros Hne Hl. destruct fs as [|f2 fs]; [congruence|].
  apply Forall_cons_iff in Hl. destruct Hl as [Hf Hl].
  assert (E : csv_record (f :: f2 :: fs) =
              csv_quote f ++ COMMA
              :: (join [COMMA] (map csv_quote (f2 :: fs)) ++ [CR; LF])).
  { unfold csv_record.
    change (join [COMMA] (map csv_quote (f :: f2 :: fs))) with
      (csv_quote f ++ COMMA :: join [COMMA] (map csv_quote (f2 :: fs))).
    destruct (csv_quote f ++ COMMA :: join [COMMA] (map csv_quote (f2 :: fs)))
      eqn:Ej; [|now rewrite <- Ej, <- app_assoc].
    apply app_eq_nil in Ej. destruct Ej as [_ Ej]. discriminate. }
  rewrite E, run_app, run_field by auto.
  rewrite run_cons, feed_comma by auto.
  now rewrite run_fields by (discriminate || assumption).
Qed.

Lemma run_records (rows : list (list pystr)) (recs : list (list pystr)) :
  Forall (fun row => (2 <= List.length row)%nat) rows ->
  Forall within_limit rows ->
  run (mk START_RECORD [] [] recs Between) (flat_map csv_record rows) =
  Some (mk START_RECORD [] [] (recs ++ rows) Between).
Proof.
  intros H. revert recs. induction H as [|row rows Hrow _ IH]; intros recs Hl.
  - simpl. now rewrite app_nil_r.
  - apply Forall_cons_iff in Hl. destruct Hl as [Hl1 Hl].
    simpl flat_map. rewrite run_app.
    destruct row as [|f fs]; [simpl in Hrow; lia|].
    rewrite run_record
      by (assumption || (destruct fs; [simpl in Hrow; lia | discriminate])).
    rewrite IH, <- app_assoc by assumption. reflexivity.
Qed.

(** Reading back what the writer wrote gives the records written. *)
Lemma read_written (rows : list (list pystr)) :
  Forall (fun row => (2 <= List.length row)%nat) rows ->
  Forall within_limit rows ->
  read (flat_map csv_record rows) = Returns rows.
Proof.
  intros H Hl. unfold read, init. now rewrite run_records.
Qed.

(** ** The lines of the files written *)

Lemma file_lines_plain (l rest cur : pystr) :
  existsb is_nl l = false ->
  file_lines (l ++ LF :: rest) cur = (cur ++ l) :: file_lines rest [].
Proof.
  revert cur. induction l as [|c l IH]; intros cur H.
  - simpl. now rewrite app_nil_r.
  - simpl in H. apply orb_false_iff in H. destruct H as [Hc Hl].
    unfold is_nl in Hc. apply orb_false_iff in Hc. destruct Hc as [H1 H2].
    simpl. rewrite H1, H2, IH by assumption. now rewrite <- app_assoc.
Qed.

Lemma file_lines_all (lines : list pystr) :
  Forall (fun l => existsb is_nl l = false) lines ->
  file_lines (flat_map (fun l => l ++ [LF]) lines) [] = lines.
Proof.
  induction 1 as [|l lines Hl _ IH]; [reflexivity|].
  simpl flat_map. rewrite <- app_assoc. simpl app.
  rewrite file_lines_plain by assumption. simpl. now rewrite IH.
Qed.


Lemma file_lines_crlf (l rest cur : pystr) :
  existsb is_nl l = false ->
  file_lines (l ++ CR :: LF :: rest) cur = (cur ++ l) :: file_lines rest [].
Proof.
  revert cur. induction l as [|c l IH]; intros cur H.
  - simpl. now rewrite app_nil_r.
  - simpl in H. apply orb_false_iff in H. destruct H as [Hc Hl].
    unfold is_nl in Hc. apply orb_false_iff in Hc. destruct Hc as [H1 H2].
    change ((c :: l) ++ CR :: LF :: rest) with (c :: (l ++ CR :: LF :: rest)).
    cbn [file_lines]. rewrite H1, H2, IH by assumption.
    now rewrite <- app_assoc.
Qed.

Lemma csv_quote_no_nl (f : pystr) :
  existsb is_nl f = false -> existsb is_nl (csv_quote f) = false.
Proof.
  intros H. unfold csv_quote. destruct (existsb csv_special f); [|exact H].
  cbn [existsb]. rewrite existsb_app. simpl.
  rewrite orb_false_r. clear -H.
  induction f as [|c f IH]; [reflexivity|].
  simpl in H. apply orb_false_iff in H. destruct H as [Hc Hf].
  simpl. destruct (c =? DQUOTE)%N; simpl; rewrite ?Hc; simpl; now apply IH.
Qed.

Lemma join_no_nl (parts : list pystr) :
  Forall (fun f => existsb is_nl f = false) parts ->
  existsb is_nl (join [COMMA] parts) = false.
Proof.
  induction 1 as [|f parts Hf Hparts IH]; [reflexivity|].
  destruct parts as [|g parts]; [exact Hf|].
  change (join [COMMA] (f :: g :: parts)) with
    (f ++ COMMA :: join [COMMA] (g :: parts)).
  rewrite existsb_app, Hf. simpl. exact IH.
Qed.

Lemma csv_record_join (fields : list pystr) :
  (2 <= List.length fields)%nat ->
  csv_record fields = join [COMMA] (map csv_quote fields) ++ [CR; LF].
Proof.
  destruct fields as [|f [|f2 fs]]; simpl List.length; try lia. intros _.
  unfold csv_record.
  change (join [COMMA] (map csv_quote (f :: f2 :: fs))) with
    (csv_quote f ++ COMMA :: join [COMMA] (map csv_quote (f2 :: fs))).
  destruct (csv_quote f ++ COMMA :: join [COMMA] (map csv_quote (f2 :: fs)))
    eqn:Ej; [|reflexivity].
  apply app_eq_nil in Ej. destruct Ej as [_ Ej]. discriminate.
Qed.

(** Records whose fields hold no CR or LF take one line each. *)
Lemma file_lines_records (rows : list (list pystr)) :
  Forall (fun row => (2 <= List.length row)%nat) rows ->
  Forall (Forall (fun f => existsb is_nl f = false)) rows ->
  file_lines (flat_map csv_record rows) []
  = map (fun row => join [COMMA] (map csv_quote row)) rows.
Proof.
  induction 1 as [|row rows Hrow _ IH]; intros Hnl; [reflexivity|].
  inversion Hnl as [|r rs Hr Hrs]; subst.
  simpl flat_map. rewrite csv_record_join by assumption.
  rewrite <- app_assoc. simpl app.
  rewrite file_lines_crlf.
  - simpl. now rewrite IH.
  - apply join_no_nl. apply Forall_map.
    revert Hr. apply Forall_impl. intros f. apply csv_quote_no_nl.
Qed.

(** ** The exports *)

Lemma write_each_returns {A} (text : A -> outcome pystr) (l : list A)
      (file out : pystr) :
  write_each text l file = Returns out <->
  exists ts,
    Forall2 (fun x t => text x = Returns t /\ encodable t = true) l ts /\
    out = file ++ concat ts.
Proof.
  revert file. induction l as [|x r IH]; intros file; simpl.
  - split.
    + intros [= <-]. exists []. split; [constructor | now rewrite app_nil_r].
    + intros (ts & H & ->). inversion H. simpl. now rewrite app_nil_r.
  - destruct (text x) as [t|] eqn:Et; simpl.
    + unfold write. destruct (encodable t) eqn:Ee; simpl.
      * rewrite IH. split.
        -- intros (ts & H & ->). exists (t :: ts). split.
           ++ constructor; auto.
           ++ simpl. now rewrite <- app_assoc.
        -- intros (ts & H & ->). inversion H as [|x' t' r' ts' [E1 E2] Hr]; subst.
           rewrite Et in E1. injection E1 as <-. exists ts'.
           split; [assumption|]. simpl. now rewrite <- app_assoc.
      * split; [discriminate|].
        intros (ts & H & _). inversion H as [|x' t' r' ts' [E1 E2] Hr]; subst.
        rewrite Et in E1. injection E1 as <-. congruence.
    + split; [discriminate|].
      intros (ts & H & _). inversion H as [|x' t' r' ts' [E1 E2] Hr].
      congruence.
Qed.

Lemma write_each_total {A} (text : A -> outcome pystr) (ok : A -> bool)
      (l : list A) (file : pystr) :
  (forall x, ok x = true -> exists t, text x = Returns t /\ encodable t = true) ->
  forallb ok l = true ->
  exists out, write_each text l file = Returns out.
Proof.
  intros Hok. revert file. induction l as [|x r IH]; intros file H; simpl.
  - eexists. reflexivity.
  - simpl in H. apply andb_true_iff in H. destruct H as [Hx Hr].
    destruct (Hok x Hx) as (t & -> & Ee). simpl. unfold write.
    rewrite Ee. simpl. now apply IH.
Qed.

Lemma Forall2_enumerate {A B} (P : Z * A -> B -> Prop) (l : list A)
      (start : Z) (rs : list B) :
  Forall2 P (enumerate l start) rs ->
  List.length rs = List.length l /\
  forall k x, nth_error l k = Some x ->
              exists r, nth_error rs k = Some r /\ P (Z.of_nat k + start, x) r.
Proof.
  revert start rs. induction l as [|y l IH]; intros start rs H; simpl in H.
  - inversion H. split; [reflexivity|]. intros [|k] x; discriminate.
  - inversion H as [|a b l1 l2 Hab Hrest]; subst.
    destruct (IH _ _ Hrest) as [Hlen Hnth]. split; [simpl; congruence|].
    intros [|k] x Hx; simpl in Hx.
    + injection Hx as <-. exists b. split; [reflexivity | exact Hab].
    + destruct (Hnth k x Hx) as (r & Hr & HP). exists r. split; [exact Hr|].
      replace (Z.of_nat (S k) + start) with (Z.of_nat k + (start + 1)) by lia.
      exact HP.
Qed.

Ltac case_str_defined :=
  repeat match goal with
         | |- context [str_defined ?x] => destruct (str_defined x)
         | |- context [int_str_ok ?x] => destruct (int_str_ok x)
         end.

(** The text of a row: the row of the fields, when the creation time
    renders and [str] returns on every cell. *)
Lemma csv_text_eq (i : Z) (s : Story.t) :
  (row <- csv_cells i s ;; Returns (writerow row)) =
  (c <- created_at_ist s ;;
   if csv_formats i s then Returns (csv_record (csv_row i s c)) else Raises).
Proof.
  unfold csv_cells, hn_link_of, csv_formats.
  destruct (created_at_ist s) as [c|]; [|reflexivity].
  cbn [bind forallb str_defined].
  destruct (str_defined (Story.id s)); cbn [bind forallb str_defined];
    case_str_defined; reflexivity.
Qed.

Lemma csv_text_returns (i : Z) (s : Story.t) (t : pystr) :
  (row <- csv_cells i s ;; Returns (writerow row)) = Returns t <->
  exists c, created_at_ist s = Returns c /\ csv_formats i s = true /\
            t = csv_record (csv_row i s c).
Proof.
  rewrite csv_text_eq.
  destruct (created_at_ist s) as [c|]; cbn [bind];
    [destruct (csv_formats i s)|]; split.
  - intros [= <-]. exists c. auto.
  - intros (c' & [= <-] & _ & ->). reflexivity.
  - discriminate.
  - intros (c' & _ & H & _). discriminate.
  - discriminate.
  - intros (c' & H & _). discriminate.
Qed.

Lemma csv_header_written :
  write [] (writerow CSV_HEADER) = Returns (csv_record CSV_HEADER_TEXT).
Proof. reflexivity. Qed.

Lemma concat_flat_map {A} (f : A -> pystr) (l : list A) :
  concat (map f l) = flat_map f l.
Proof. symmetry. apply flat_map_concat_map. Qed.

Lemma csv_rows_of (l : list (Z * Story.t)) (ts : list pystr) :
  Forall2 (fun x t =>
             (row <- csv_cells (fst x) (snd x) ;; Returns (writerow row))
             = Returns t /\ encodable t = true) l ts ->
  exists rows,
    Forall2 (fun x row => exists c, created_at_ist (snd x) = Returns c /\
                                    row = csv_row (fst x) (snd x) c) l rows /\
    ts = map csv_record rows /\
    Forall (fun row => (2 <= List.length row)%nat) rows.
Proof.
  induction 1 as [|x t l ts [Ht _] _ IH].
  - exists []. repeat split; constructor.
  - destruct IH as (rows & H1 & -> & H2).
    apply csv_text_returns in Ht. destruct Ht as (c & Hc & _ & ->).
    exists (csv_row (fst x) (snd x) c :: rows). repeat split.
    + constructor; [|assumption]. exists c. auto.
    + constructor; [simpl; lia | assumption].
Qed.

(** C6: when [write_csv] returns, the file is the header record followed
    by one record per story, N+1 records in all, each closed by CR LF;
    the record of the story at position k carries the rank k+1 and the
    story's fields, numbers in decimal, [None] and a missing URL as the
    empty string. When no field is longer than the reader's limit of
    131072 characters, the csv reader gives back exactly these records,
    in this order. When no field holds a CR or LF the file has N+1
    lines; a field that holds one makes the file longer than that. The
    write returns whenever every creation time renders, [str] returns on
    every cell and every row encodes. *)
Theorem write_csv_roundtrip (stories : list Story.t) :
  (forallb csv_writable (enumerate stories 1) = true ->
   exists file, write_csv stories = Returns file) /\
  (forall file,
      write_csv stories = Returns file ->
      exists rows : list (list pystr),
        List.length (CSV_HEADER_TEXT :: rows) = S (List.length stories) /\
        (forall k s,
            nth_error stories k = Some s ->
            exists c,
              created_at_ist s = Returns c /\
              nth_error rows k = Some (csv_row (Z.of_nat k + 1) s c)) /\
        file = flat_map csv_record (CSV_HEADER_TEXT :: rows) /\
        (Forall (Forall (fun f => len f <= 131072)) rows ->
         CsvReader.read file = Returns (CSV_HEADER_TEXT :: rows)) /\
        (Forall (Forall (fun f => existsb is_nl f = false)) rows ->
         List.length (file_lines file []) = S (List.length stories))) /\
  csv_record CSV_HEADER_TEXT =
    lit "rank,id,title,score,comments,by,created_ist,hn_link,url" ++ [CR; LF] /\
  (forall i s c, Story.url s = JNull -> nth 8 (csv_row i s c) [LF] = []).
Proof.
  split; [|split; [|split]].
  - intros H. unfold write_csv. rewrite csv_header_written. cbn [bind].
    apply write_each_total with (ok := csv_writable); [|exact H].
    intros [i s]. rewrite csv_text_eq.
    unfold csv_writable, created_at_ist. cbn [fst snd].
    destruct (strftime_ist (Story.time s)) as [c|]; [|discriminate].
    intros He. apply andb_true_iff in He. destruct He as [-> He].
    eexists. split; [reflexivity | exact He].
  - intros file H. unfold write_csv in H.
    rewrite csv_header_written in H. cbn [bind] in H.
    apply write_each_returns in H. destruct H as (ts & Hts & ->).
    apply csv_rows_of in Hts. destruct Hts as (rows & Hrows & -> & H2).
    apply Forall2_enumerate in Hrows. destruct Hrows as [Hlen Hnth].
    exists rows. split; [simpl; congruence|]. split.
    { intros k s Hk. destruct (Hnth k s Hk) as (r & Hr & c & Hc & ->).
      exists c. auto. }
    assert (E : csv_record CSV_HEADER_TEXT ++ concat (map csv_record rows)
                = flat_map csv_record (CSV_HEADER_TEXT :: rows))
      by (simpl flat_map; now rewrite concat_flat_map).
    assert (H9 : Forall (fun row => (2 <= List.length row)%nat)
                        (CSV_HEADER_TEXT :: rows))
      by (constructor; [simpl; lia | assumption]).
    split; [exact E|]. rewrite E. split.
    + intros Hl. apply read_written; [exact H9|].
      constructor; [|exact Hl].
      repeat constructor; vm_compute; discriminate.
    + intros Hnl. rewrite file_lines_records.
      * rewrite length_map. simpl. congruence.
      * exact H9.
      * constructor; [repeat constructor | exact Hnl].
  - reflexivity.
  - intros i s c Hu. unfold csv_row. rewrite Hu. reflexivity.
Qed.

(** *** Markdown *)

Lemma md_text_eq (i : Z) (s : Story.t) :
  (l <- md_line i s ;; Returns (l ++ [LF])) =
  (c <- created_at_ist s ;;
   if md_formats i s then Returns (md_item i s c ++ [LF]) else Raises).
Proof.
  unfold md_line, hn_link_of, md_formats.
  destruct (created_at_ist s) as [c|]; [|reflexivity].
  cbn [bind forallb str_defined].
  destruct (str_defined (Story.id s)); cbn [bind forallb str_defined];
    case_str_defined; reflexivity.
Qed.

Lemma md_text_returns (i : Z) (s : Story.t) (t : pystr) :
  (l <- md_line i s ;; Returns (l ++ [LF])) = Returns t <->
  exists c, created_at_ist s = Returns c /\ md_formats i s = true /\
            t = md_item i s c ++ [LF].
Proof.
  rewrite md_text_eq.
  destruct (created_at_ist s) as [c|]; cbn [bind];
    [destruct (md_formats i s)|]; split.
  - intros [= <-]. exists c. auto.
  - intros (c' & [= <-] & _ & ->). reflexivity.
  - discriminate.
  - intros (c' & _ & H & _). discriminate.
  - discriminate.
  - intros (c' & H & _). discriminate.
Qed.

Lemma md_lines_of (l : list (Z * Story.t)) (ts : list pystr) :
  Forall2 (fun x t =>
             (ln <- md_line (fst x) (snd x) ;; Returns (ln ++ [LF]))
             = Returns t /\ encodable t = true) l ts ->
  exists lines,
    Forall2 (fun x ln => exists c, created_at_ist (snd x) = Returns c /\
                                   ln = md_item (fst x) (snd x) c) l lines /\
    ts = map (fun ln => ln ++ [LF]) lines.
Proof.
  induction 1 as [|x t l ts [Ht _] _ IH].
  - exists []. split; [constructor | reflexivity].
  - destruct IH as (lines & H1 & ->).
    apply md_text_returns in Ht. destruct Ht as (c & Hc & _ & ->).
    exists (md_item (fst x) (snd x) c :: lines). split; [|reflexivity].
    constructor; [|assumption]. exists c. auto.
Qed.

Lemma md_heading_written :
  write [] (MD_HEADING ++ [LF; LF]) = Returns (MD_HEADING ++ [LF; LF]).
Proof. reflexivity. Qed.

(** C7: when [write_md] returns, the file is the heading line, an empty
    line, and then one line per story in rank order; the line of the
    story at position k starts with the rank k+1 and has the form
    [k+1. [title](url) — **score points**, n comments — time — [HN](hn_link)],
    where url is the HN link when the story's URL is falsy. When no
    line holds a CR or LF, the file has N+2 lines. The write returns
    whenever every creation time renders, [str] returns on what the
    lines format and every line encodes. *)
Theorem write_md_lines (stories : list Story.t) :
  (forallb md_writable (enumerate stories 1) = true ->
   exists file, write_md stories = Returns file) /\
  (forall file,
      write_md stories = Returns file ->
      exists lines : list pystr,
        List.length lines = List.length stories /\
        (forall k s,
            nth_error stories k = Some s ->
            exists c,
              created_at_ist s = Returns c /\
              nth_error lines k = Some (md_item (Z.of_nat k + 1) s c)) /\
        file = MD_HEADING ++ [LF; LF] ++ flat_map (fun l => l ++ [LF]) lines /\
        (Forall (fun l => existsb is_nl l = false) lines ->
         file_lines file [] = MD_HEADING :: [] :: lines /\
         List.length (file_lines file []) = (2 + List.length stories)%nat)) /\
  (forall i s c,
      md_item i s c =
      str_int i ++ lit ". [" ++ py_str (Story.title s) ++ lit "]("
      ++ (if truthy (Story.url s) then py_str (Story.url s) else hn_link s)
      ++ lit ") " ++ [emdash] ++ lit " **"
      ++ str_int (Story.score s) ++ lit " points**, "
      ++ str_int (Story.descendants s) ++ lit " comments "
      ++ [emdash] ++ lit " " ++ c ++ lit " " ++ [emdash]
      ++ lit " [HN](" ++ hn_link s ++ lit ")").
Proof.
  split; [|split].
  - intros H. unfold write_md. rewrite md_heading_written. cbn [bind].
    apply write_each_total with (ok := md_writable); [|exact H].
    intros [i s]. rewrite md_text_eq.
    unfold md_writable, created_at_ist. cbn [fst snd].
    destruct (strftime_ist (Story.time s)) as [c|]; [|discriminate].
    intros He. apply andb_true_iff in He. destruct He as [-> He].
    eexists. split; [reflexivity | exact He].
  - intros file H. unfold write_md in H.
    rewrite md_heading_written in H. cbn [bind] in H.
    apply write_each_returns in H. destruct H as (ts & Hts & ->).
    apply md_lines_of in Hts. destruct Hts as (lines & Hlines & ->).
    apply Forall2_enumerate in Hlines. destruct Hlines as [Hlen Hnth].
    exists lines. split; [assumption|]. split.
    { intros k s Hk. destruct (Hnth k s Hk) as (r & Hr & c & Hc & ->).
      exists c. auto. }
    rewrite concat_flat_map, <- app_assoc. split; [reflexivity|].
    intros Hnl.
    assert (E : file_lines
                  (MD_HEADING ++ [LF; LF] ++ flat_map (fun l => l ++ [LF]) lines) []
                = MD_HEADING :: [] :: lines).
    { change ([LF; LF] ++ flat_map (fun l => l ++ [LF]) lines) with
        (LF :: ([] ++ LF :: flat_map (fun l : pystr => l ++ [LF]) lines)).
      rewrite file_lines_plain by reflexivity.
      rewrite file_lines_plain by reflexivity.
      now rewrite file_lines_all. }
    rewrite E. split; [reflexivity|]. simpl. now rewrite Hlen.
  - intros i s c. unfold md_item, py_or.
    destruct (truthy (Story.url s)); reflexivity.
Qed.

(** C8: when the ID lister returns an empty list the collector returns
    the empty list and has requested the feed only; on the empty list
    [print_table] prints the notice and nothing else, [write_csv]
    writes the header record only, which reads back as that one record,
    and [write_md] writes the heading and the empty line only. *)
Theorem empty_run :
  (forall limit window_hours : Z,
      fst get_new_story_ids = Returns [] ->
      collect_top_new limit window_hours = (Returns [], [NEW_STORIES_ENDPOINT])) /\
  print_table [] = Returns [NO_STORIES] /\
  write_csv [] = Returns (csv_record CSV_HEADER_TEXT) /\
  CsvReader.read (csv_record CSV_HEADER_TEXT) = Returns [CSV_HEADER_TEXT] /\
  write_md [] = Returns (MD_HEADING ++ [LF; LF]) /\
  file_lines (MD_HEADING ++ [LF; LF]) [] = [MD_HEADING; []].
Proof.
  split; [|repeat split].
  intros limit wh H. unfold collect_top_new.
  rewrite get_new_story_ids_eq in *. simpl in H. rewrite H.
  unfold lbind, lret. unfold slice_to. simpl.
  destruct (limit <? 0); rewrite firstn_nil; reflexivity.
Qed.

(** C4: for a maximum length of at least 1, [human_trunc] returns a
    string of at most that length: the string itself when it is no
    longer than the maximum, and otherwise its first L-1 characters
    followed by the ellipsis. A string no longer than the maximum is
    returned unchanged for every maximum. *)
Theorem human_trunc_bounded (S : pystr) (L : Z) :
  (len S <= L -> human_trunc (JStr S) L = Returns (JStr S)) /\
  (1 <= L -> L < len S ->
   human_trunc (JStr S) L =
   Returns (JStr (firstn (Z.to_nat (L - 1)) S ++ [ellipsis]))) /\
  (1 <= L ->
   exists r, human_trunc (JStr S) L = Returns (JStr r) /\ len r <= L).
Proof.
  assert (E : human_trunc (JStr S) L =
              Returns (JStr (if len S <=? L then S
                             else slice_to S (L - 1) ++ [ellipsis]))).
  { unfold human_trunc, py_or. simpl truthy.
    destruct (negb (len S =? 0)) eqn:E0; [reflexivity|].
    apply negb_false_iff, len_eqb_0 in E0. subst S. simpl.
    destruct (0 <=? L); reflexivity. }
  assert (Hlong : 1 <= L -> L < len S ->
                  (if len S <=? L then S else slice_to S (L - 1) ++ [ellipsis])
                  = firstn (Z.to_nat (L - 1)) S ++ [ellipsis]).
  { intros H1 H2. destruct (len S <=? L) eqn:El; [apply Z.leb_le in El; lia|].
    unfold slice_to. destruct (L - 1 <? 0) eqn:En; [apply Z.ltb_lt in En; lia|].
    reflexivity. }
  split; [|split].
  - intros H. rewrite E. apply Z.leb_le in H. now rewrite H.
  - intros H1 H2. rewrite E, Hlong by assumption. reflexivity.
  - intros H1. destruct (Z.le_gt_cases (len S) L) as [Hle|Hgt].
    + exists S. split; [|assumption].
      rewrite E. apply Z.leb_le in Hle. now rewrite Hle.
    + exists (firstn (Z.to_nat (L - 1)) S ++ [ellipsis]). split.
      * rewrite E, Hlong by assumption. reflexivity.
      * unfold len in *. rewrite length_app, length_firstn. simpl. lia.
Qed.

(** ** Further properties of the ranking *)

Lemma ranked_app_inv (a b : list Story.t) :
  ranked (a ++ b) ->
  forall x y, In x a -> In y b -> key_le (key y) (key x).
Proof.
  unfold ranked. induction a as [|z a IH]; intros H x y Hx Hy; [destruct Hx|].
  simpl in H. apply StronglySorted_inv in H. destruct H as [Ha Hz].
  destruct Hx as [->|Hx].
  - rewrite Forall_forall in Hz. apply Hz. apply in_or_app. now right.
  - now apply IH.
Qed.

Lemma ranked_sort_desc_id (l : list Story.t) : ranked l -> sort_desc l = l.
Proof.
  unfold ranked. induction l as [|x r IH]; intros H; [reflexivity|].
  apply StronglySorted_inv in H. destruct H as [Hr Hx].
  simpl. rewrite IH by assumption.
  destruct r as [|y r]; [reflexivity|].
  simpl. inversion Hx as [|? ? Hy _]; subst.
  apply key_ltb_false in Hy. now rewrite Hy.
Qed.

Lemma filter_firstn_prefix {A} (p : A -> bool) (n : nat) (l : list A) :
  exists m, filter p (firstn n l) = firstn m (filter p l).
Proof.
  revert l. induction n as [|n IH]; intros l; [now exists 0%nat|].
  destruct l as [|x r]; [now exists 0%nat|].
  destruct (IH r) as [m Hm]. simpl. destruct (p x).
  - exists (S m). simpl. now rewrite Hm.
  - now exists m.
Qed.

(** X1: the collector's last step returns min(10, n) of the n retained
    stories, and all of them, reordered, when there are ten or fewer. *)
Theorem rank_length (recent : list Story.t) :
  List.length (rank recent) = Nat.min 10 (List.length recent) /\
  ((List.length recent <= 10)%nat -> Permutation recent (rank recent)).
Proof.
  unfold rank. split.
  - rewrite length_firstn. f_equal. symmetry.
    apply Permutation_length, sort_desc_perm.
  - intros H. rewrite firstn_all2.
    + apply sort_desc_perm.
    + now rewrite <- (Permutation_length (sort_desc_perm recent)).
Qed.

(** X2: the stories the ranking leaves out are never better than the ones
    it returns: the retained list splits into the returned stories and a
    rest, and every story of the rest has, compared with every returned
    story, a lower score, or the same score and fewer comments, or the
    same score and comment count and a creation time that is not later. *)
Theorem rank_keeps_best (recent : list Story.t) :
  exists rest : list Story.t,
    Permutation recent (rank recent ++ rest) /\
    forall x y, In x (rank recent) -> In y rest ->
      Story.score y < Story.score x \/
      (Story.score y = Story.score x /\
       (Story.descendants y < Story.descendants x \/
        (Story.descendants y = Story.descendants x /\
         Story.time y <= Story.time x))).
Proof.
  exists (skipn 10 (sort_desc recent)). unfold rank. split.
  - rewrite firstn_skipn. apply sort_desc_perm.
  - intros x y Hx Hy.
    assert (H : ranked (firstn 10 (sort_desc recent)
                        ++ skipn 10 (sort_desc recent)))
      by (rewrite firstn_skipn; apply sort_desc_ranked).
    exact (ranked_app_inv _ _ H x y Hx Hy).
Qed.

(** X3: ties keep the order in which the stories were fetched: among the
    retained stories of any one key, the ranking returns the first ones,
    in their original order. *)
Theorem rank_ties_keep_order (recent : list Story.t) (k : Z * Z * Z) :
  filter (same_key k) (sort_desc recent) = filter (same_key k) recent /\
  exists m : nat,
    filter (same_key k) (rank recent) = firstn m (filter (same_key k) recent).
Proof.
  assert (E : filter (same_key k) (sort_desc recent)
              = filter (same_key k) recent) by apply sort_desc_stable.
  split; [exact E|]. unfold rank.
  destruct (filter_firstn_prefix (same_key k) 10 (sort_desc recent)) as [m Hm].
  exists m. now rewrite Hm, E.
Qed.

(** X4: a list already in rank order is left as it is by the sort, and
    ranking a second time changes nothing. *)
Theorem rank_idempotent (l : list Story.t) :
  (ranked l -> sort_desc l = l) /\
  rank (rank l) = rank l.
Proof.
  split; [apply ranked_sort_desc_id|].
  destruct (rank_ranked l) as [Hr Hl].
  unfold rank at 1. rewrite (ranked_sort_desc_id _ Hr).
  now apply firstn_all2.
Qed.

(** ** Further properties of the fetch and of the reader *)

Lemma slice_to_nil {A} (k : Z) : slice_to (@nil A) k = [].
Proof. unfold slice_to. destruct (k <? 0); apply firstn_nil. Qed.




Lemma item_of_none (j : json) :
  item_of j = Returns None <->
  truthy j = false \/
  exists items, j = JObj items /\
    eq_str (dict_get items (lit "type")) (lit "story") = false.
Proof.
  unfold item_of. destruct (truthy j) eqn:Et; cbn [negb].
  - destruct j as [ |b|z|f|t|l|items]; try (split;
      [ discriminate
      | intros [H|(items & H & _)]; discriminate ]).
    destruct (eq_str (dict_get items (lit "type")) (lit "story")) eqn:Es;
      cbn [negb].
    + destruct (story_of items); cbn [bind]; split; try discriminate;
        intros [H|(items' & [= <-] & H)]; congruence.
    + split; [|reflexivity]. intros _. right. exists items. auto.
  - split; [auto | reflexivity].
Qed.

Lemma item_of_raises (j : json) :
  item_of j = Raises <->
  truthy j = true /\
  ((forall items, j <> JObj items) \/
   exists items, j = JObj items /\
     eq_str (dict_get items (lit "type")) (lit "story") = true /\
     story_of items = Raises).
Proof.
  unfold item_of. destruct (truthy j) eqn:Et; cbn [negb].
  - destruct j as [ |b|z|f|t|l|items]; try (split;
      [ intros _; split; [reflexivity|]; left; intros items; discriminate
      | reflexivity ]).
    destruct (eq_str (dict_get items (lit "type")) (lit "story")) eqn:Es;
      cbn [negb].
    + destruct (story_of items) eqn:Eo; cbn [bind]; split.
      * discriminate.
      * intros (_ & [H|(items' & [= <-] & _ & H)]);
          [now destruct (H items) | congruence].
      * intros _. split; [reflexivity|]. right. exists items. auto.
      * reflexivity.
    + split; [discriminate|].
      intros (_ & [H|(items' & [= <-] & H & _)]);
        [now destruct (H items) | congruence].
  - split; [discriminate | intros [H _]; discriminate].
Qed.

(** X6: [get_item] raises without a request when the URL cannot be
    formatted. Otherwise it makes exactly one request, and apart from
    the stories it reads it returns nothing exactly when the fetch failed
    in a caught way, the body is falsy (null, an empty object, 0, ...) or
    an object whose type is not "story"; it raises exactly when the fetch
    raised something uncaught, the body is a truthy value that is not an
    object, or the constructor call raised on a story record. *)
Theorem get_item_outcomes (story_id : json) :
  (str_defined story_id = false -> get_item story_id = (Raises, [])) /\
  (str_defined story_id = true ->
   snd (get_item story_id) = [item_url story_id] /\
   (fst (get_item story_id) = Returns None <->
    urlopen (item_url story_id) = Caught \/
    exists j, urlopen (item_url story_id) = Body j /\
      (truthy j = false \/
       exists items, j = JObj items /\
         eq_str (dict_get items (lit "type")) (lit "story") = false)) /\
   (fst (get_item story_id) = Raises <->
    urlopen (item_url story_id) = Uncaught \/
    exists j, urlopen (item_url story_id) = Body j /\ truthy j = true /\
      ((forall items, j <> JObj items) \/
       exists items, j = JObj items /\
         eq_str (dict_get items (lit "type")) (lit "story") = true /\
         story_of items = Raises))).
Proof.
  rewrite get_item_eq. split; [intros ->; reflexivity|]. intros ->.
  cbn [fst snd]. split; [reflexivity|].
  destruct (urlopen (item_url story_id)) as [j| |] eqn:Eu.
  - split.
    + rewrite item_of_none. split.
      * intros H. right. exists j. auto.
      * intros [H|(j' & [= <-] & H)]; [discriminate | exact H].
    + rewrite item_of_raises. split.
      * intros H. right. exists j. destruct H. auto.
      * intros [H|(j' & [= <-] & H1 & H2)]; [discriminate | auto].
  - split; split.
    + intros _. now left.
    + reflexivity.
    + discriminate.
    + intros [H|(j' & H & _)]; discriminate.
  - split; split.
    + discriminate.
    + intros [H|(j' & H & _)]; discriminate.
    + intros _. now left.
    + reflexivity.
Qed.

(** X7: the defaults of the constructor call apply to a field that is
    present but falsy as to one that is absent: an empty or null title
    becomes the placeholder, an empty or null author "unknown", and a
    score, time or descendant count of null, false, 0, "" or [] becomes 0;
    a truthy title or author is kept as it is. *)
Theorem story_of_falsy_defaults (items : list (pystr * json)) (s : Story.t) :
  story_of items = Returns s ->
  (truthy (dict_get items (lit "title")) = false ->
   Story.title s = JStr (lit "(no title)")) /\
  (truthy (dict_get items (lit "title")) = true ->
   Story.title s = dict_get items (lit "title")) /\
  (truthy (dict_get items (lit "by")) = false ->
   Story.by_ s = JStr (lit "unknown")) /\
  (truthy (dict_get items (lit "by")) = true ->
   Story.by_ s = dict_get items (lit "by")) /\
  (truthy (dict_get items (lit "score")) = false -> Story.score s = 0) /\
  (truthy (dict_get items (lit "time")) = false -> Story.time s = 0) /\
  (truthy (dict_get items (lit "descendants")) = false ->
   Story.descendants s = 0).
Proof.
  intros H. apply story_of_returns in H.
  destruct H as (Hsc & Htm & Hds & _ & Ht & _ & Hb).
  unfold py_or in *.
  repeat split; intros E; rewrite E in *; try assumption;
    cbn in *; congruence.
Qed.

(** ** Further properties of the links and of the truncation *)

Lemma lit_inj (a b : string) : lit a = lit b -> a = b.
Proof.
  unfold lit. intros H.
  rewrite <- (string_of_list_ascii_of_string a),
          <- (string_of_list_ascii_of_string b).
  f_equal. revert H.
  generalize (list_ascii_of_string a) (list_ascii_of_string b).
  induction l as [|x l IH]; intros [|y l']; simpl; try discriminate;
    [reflexivity|].
  intros [= Hxy Hl]. f_equal; [|now apply IH].
  rewrite <- (ascii_N_embedding x), <- (ascii_N_embedding y). now rewrite Hxy.
Qed.

Lemma str_int_inj (a b : Z) : str_int a = str_int b -> a = b.
Proof.
  unfold str_int. intros H. apply lit_inj in H.
  assert (Hn : forall z, Z.to_int z <> Decimal.Pos Decimal.Nil /\
                         Z.to_int z <> Decimal.Neg Decimal.Nil).
  { intros z. split; intros E; pose proof (f_equal Z.of_int E) as E';
      rewrite DecimalZ.of_to in E'; cbn in E'; subst z;
      vm_compute in E; discriminate E. }
  apply DecimalZ.to_int_inj.
  destruct (Hn a) as [Ha1 Ha2], (Hn b) as [Hb1 Hb2].
  pose proof (NilZero.isi _ Ha1 Ha2) as Ea.
  pose proof (NilZero.isi _ Hb1 Hb2) as Eb.
  rewrite H in Ea. rewrite Ea in Eb. now injection Eb.
Qed.

(** X8: distinct integer identifiers never share a URL: the item URL
    requested for an identifier and the HN link of a story determine the
    identifier. *)
Theorem item_url_injective (a b : Z) :
  (item_url (JInt a) = item_url (JInt b) -> a = b) /\
  (forall s1 s2 : Story.t,
      Story.id s1 = JInt a -> Story.id s2 = JInt b ->
      hn_link s1 = hn_link s2 -> a = b).
Proof.
  split.
  - unfold item_url. cbn [py_str]. intros H.
    apply app_inv_head, app_inv_head, app_inv_tail in H.
    now apply str_int_inj.
  - intros s1 s2 H1 H2. unfold hn_link. rewrite H1, H2. cbn [py_str].
    intros H. apply app_inv_head in H. now apply str_int_inj.
Qed.

Lemma human_trunc_str (S : pystr) (L : Z) :
  human_trunc (JStr S) L =
  Returns (JStr (if len S <=? L then S else slice_to S (L - 1) ++ [ellipsis])).
Proof.
  unfold human_trunc, py_or. cbn [truthy].
  destruct (negb (len S =? 0)) eqn:E0; [reflexivity|].
  apply negb_false_iff, len_eqb_0 in E0. subst S. cbn.
  destruct (0 <=? L); reflexivity.
Qed.

(** X9: for a maximum length of at least 1, truncating twice is
    truncating once, the result keeps the first L-1 characters of the
    string, and [None] is shown as the empty string. *)
Theorem human_trunc_idempotent (S : pystr) (L : Z) :
  1 <= L ->
  (exists r : pystr,
      human_trunc (JStr S) L = Returns (JStr r) /\
      human_trunc (JStr r) L = Returns (JStr r) /\
      firstn (Z.to_nat (L - 1)) r = firstn (Z.to_nat (L - 1)) S) /\
  human_trunc JNull L = Returns (JStr []).
Proof.
  intros HL. split.
  - rewrite human_trunc_str. destruct (len S <=? L) eqn:E.
    + exists S. split; [reflexivity|]. split; [|reflexivity].
      now rewrite human_trunc_str, E.
    + apply Z.leb_gt in E. unfold slice_to.
      replace (L - 1 <? 0) with false by (symmetry; apply Z.ltb_ge; lia).
      set (n := Z.to_nat (L - 1)).
      assert (Hn : List.length (firstn n S) = n).
      { apply firstn_length_le. unfold len in E. lia. }
      exists (firstn n S ++ [ellipsis]). split; [reflexivity|]. split.
      * rewrite human_trunc_str.
        replace (len (firstn n S ++ [ellipsis]) <=? L) with true; [reflexivity|].
        symmetry. apply Z.leb_le. unfold len.
        rewrite length_app, Hn. cbn [List.length]. lia.
      * rewrite firstn_app, Hn, Nat.sub_diag, firstn_firstn, Nat.min_id.
        cbn [firstn]. now rewrite app_nil_r.
  - unfold human_trunc, py_or. cbn.
    replace (0 <=? L) with true by (symmetry; apply Z.leb_le; lia).
    reflexivity.
Qed.

(** ** Further properties of the table *)


Lemma sequence_total {A} (l : list (outcome A)) :
  Forall (fun m => exists r, m = Returns r) l ->
  exists rs, sequence l = Returns rs.
Proof.
  induction 1 as [|m l [r ->] _ [rs IH]]; cbn [sequence].
  - now exists [].
  - rewrite IH. cbn [bind]. now eexists.
Qed.













(** *** What can be printed *)





















(** ** The entry point *)

Lemma pystr_eqb_refl (p : pystr) : pystr_eqb p p = true.
Proof.
  unfold pystr_eqb. destruct (list_eq_dec N.eq_dec p p) as [_|H];
    [reflexivity | now destruct H].
Qed.

Lemma pystr_eqb_neq (p q : pystr) : p <> q -> pystr_eqb p q = false.
Proof.
  unfold pystr_eqb. destruct (list_eq_dec N.eq_dec p q) as [H|_];
    [intros Hn; now destruct Hn | reflexivity].
Qed.

Lemma export_returns (writer : list Story.t -> outcome pystr)
      (stories : list Story.t) (path : pystr) (fs fs' : files) :
  export writer stories path fs = Returns fs' <->
  exists text,
    writer stories = Returns text /\ os_accepts path text = true /\
    fs' = put fs path text.
Proof.
  unfold export. destruct (writer stories) as [text|]; cbn [bind].
  - destruct (os_accepts path text) eqn:E; split.
    + intros [= <-]. exists text. auto.
    + intros (t & [= <-] & _ & ->). reflexivity.
    + discriminate.
    + intros (t & [= <-] & H & _). congruence.
  - split; [discriminate | intros (t & H & _); discriminate].
Qed.

Lemma print_returns (out line out' : pystr) :
  print out line = Returns out' -> out' = out ++ line ++ [LF].
Proof.
  unfold print, write. destruct (encodable (line ++ [LF])); [|discriminate].
  now intros [= <-].
Qed.

Lemma put_same (fs : files) (p q text : pystr) :
  resolve p = resolve q -> file_at (put fs p text) q = Some text.
Proof.
  intros E. unfold file_at, put. now rewrite E, pystr_eqb_refl.
Qed.

Lemma put_other (fs : files) (p text file : pystr) :
  resolve p <> file -> put fs p text file = fs file.
Proof.
  intros E. unfold put. rewrite pystr_eqb_neq; [reflexivity | congruence].
Qed.

(** X13: when [main] returns, it has requested what the collector
    requested and printed the table of the collector's stories and then
    one notice per export. The Markdown file, when asked for, holds what
    [write_md] writes for these stories; so does the CSV file for
    [write_csv], unless the two paths name the same file, in which case
    the Markdown has replaced the CSV text. A path given as the empty
    string counts as not given, and no other file has changed. *)
Theorem main_exports (a : args) (fs fs' : files) (out : pystr)
        (log : list pystr) :
  main a fs = (Returns (out, fs'), log) ->
  exists stories lines,
    collect_top_new (args_limit a) (args_window_hours a)
    = (Returns stories, log) /\
    print_table stories = Returns lines /\
    out = stdout_of lines
          ++ match given (args_csv a) with
             | Some p => [LF] ++ lit "Saved CSV to " ++ p ++ [LF]
             | None => []
             end
          ++ match given (args_md a) with
             | Some p => lit "Saved Markdown to " ++ p ++ [LF]
             | None => []
             end /\
    (forall p, given (args_md a) = Some p ->
               exists text, write_md stories = Returns text /\
                            file_at fs' p = Some text) /\
    (forall p, given (args_csv a) = Some p ->
               (forall q, given (args_md a) = Some q ->
                          resolve q <> resolve p) ->
               exists text, write_csv stories = Returns text /\
                            file_at fs' p = Some text) /\
    (forall p q, given (args_csv a) = Some p ->
                 given (args_md a) = Some q ->
                 resolve q = resolve p ->
                 exists text, write_md stories = Returns text /\
                              file_at fs' p = Some text) /\
    (forall file,
        (forall p, given (args_csv a) = Some p -> resolve p <> file) ->
        (forall p, given (args_md a) = Some p -> resolve p <> file) ->
        fs' file = fs file).
Proof.
  unfold main.
  destruct (collect_top_new (args_limit a) (args_window_hours a))
    as [[stories|] l]; cbn [lbind llift]; [|discriminate].
  destruct (print_table stories) as [lines|] eqn:Ep; cbn [bind];
    [|discriminate].
  intros H. injection H as H <-. rewrite app_nil_r.
  exists stories, lines. split; [reflexivity|]. split; [exact Ep|].
  destruct (given (args_csv a)) as [pc|]; destruct (given (args_md a)) as [pm|];
    cbn [bind fst snd] in H.
  - destruct (export write_csv stories pc fs) as [fs1|] eqn:E1; cbn [bind] in H;
      [|discriminate].
    destruct (print (stdout_of lines) _) as [o1|] eqn:P1; cbn [bind] in H;
      [|discriminate].
    cbn [fst snd] in H.
    destruct (export write_md stories pm fs1) as [fs2|] eqn:E2; cbn [bind] in H;
      [|discriminate].
    destruct (print o1 _) as [o2|] eqn:P2; cbn [bind] in H; [|discriminate].
    injection H as <- <-.
    apply print_returns in P1, P2. subst o1 o2.
    apply export_returns in E1, E2.
    destruct E1 as (tc & Hc & _ & ->), E2 as (tm & Hm & _ & ->).
    split; [now rewrite <- !app_assoc|].
    split; [|split; [|split]].
    + intros p [= <-]. exists tm. split; [exact Hm | now apply put_same].
    + intros p [= <-] Hn. exists tc. split; [exact Hc|].
      unfold file_at. rewrite put_other by (now apply Hn).
      now apply put_same.
    + intros p q [= <-] [= <-] E. exists tm. split; [exact Hm|].
      now apply put_same.
    + intros file H1 H2. rewrite !put_other; auto.
  - destruct (export write_csv stories pc fs) as [fs1|] eqn:E1; cbn [bind] in H;
      [|discriminate].
    destruct (print (stdout_of lines) _) as [o1|] eqn:P1; cbn [bind] in H;
      [|discriminate].
    injection H as <- <-.
    apply print_returns in P1. subst o1.
    apply export_returns in E1. destruct E1 as (tc & Hc & _ & ->).
    split; [now rewrite <- !app_assoc, app_nil_r|].
    split; [|split; [|split]].
    + intros p [=].
    + intros p [= <-] _. exists tc. split; [exact Hc | now apply put_same].
    + intros p q _ [=].
    + intros file H1 _. rewrite put_other; auto.
  - destruct (export write_md stories pm fs) as [fs2|] eqn:E2; cbn [bind] in H;
      [|discriminate].
    destruct (print (stdout_of lines) _) as [o2|] eqn:P2; cbn [bind] in H;
      [|discriminate].
    injection H as <- <-.
    apply print_returns in P2. subst o2.
    apply export_returns in E2. destruct E2 as (tm & Hm & _ & ->).
    split; [reflexivity|].
    split; [|split; [|split]].
    + intros p [= <-]. exists tm. split; [exact Hm | now apply put_same].
    + intros p [=].
    + intros p q [=].
    + intros file _ H2. rewrite put_other; auto.
  - injection H as <- <-.
    split; [now rewrite app_nil_r|].
    split; [|split; [|split]].
    + intros p [=].
    + intros p [=].
    + intros p q [=].
    + reflexivity.
Qed.

(** ** When the collector and the exports raise *)

Lemma pool_map_raises {A B} (ahead : nat) (f : A -> logged B) (xs : list A) :
  fst (pool_map ahead f xs) = Raises
  <-> Exists (fun x => fst (f x) = Raises) xs.
Proof.
  induction xs as [|x r IH]; cbn [pool_map].
  - cbn. split; [discriminate | intros H; inversion H].
  - rewrite Exists_cons. destruct (f x) as [o l] eqn:Ef. cbn [fst].
    destruct o as [b|].
    + destruct (pool_map ahead f r) as [os ls]. cbn [fst] in *.
      destruct os as [bs|]; cbn [bind].
      * split; [discriminate|]. intros [H|H]; [discriminate|].
        apply IH in H. discriminate.
      * split; [|reflexivity]. intros _. right. now apply IH.
    + split; [now left | reflexivity].
Qed.

(** X14: the collector raises exactly when the feed fetch raises, or,
    with at least one identifier to inspect, when one of the item reads
    raises or the clock arithmetic does: one item that makes [get_item]
    raise loses the whole run, however many others were read. *)
Theorem collect_top_new_raises (limit window_hours : Z) :
  fst (collect_top_new limit window_hours) = Raises <->
  fst get_new_story_ids = Raises \/
  exists ids,
    fst get_new_story_ids = Returns ids /\
    slice_to ids limit <> [] /\
    (Exists (fun story_id => fst (get_item story_id) = Raises)
            (slice_to ids limit) \/
     cutoff_at window_hours = None).
Proof.
  unfold collect_top_new.
  destruct get_new_story_ids as [[all|] l0]; cbn [lbind fst].
  - destruct (len (slice_to all limit) =? 0) eqn:E.
    + apply len_eqb_0 in E. cbn. split; [discriminate|].
      intros [H|(ids & [= <-] & Hne & _)]; [discriminate | now destruct Hne].
    + assert (Hne : slice_to all limit <> [])
        by (intros H; apply len_eqb_0 in H; congruence).
      pose proof (pool_map_raises ran_ahead get_item (slice_to all limit))
        as Hp.
      destruct (pool_map ran_ahead get_item (slice_to all limit))
        as [[results|] l2];
        cbn [lbind llift fst] in *.
      * destruct (cutoff_at window_hours) as [c|]; cbn [of_option bind fst].
        -- split; [discriminate|].
           intros [H|(ids & [= <-] & _ & [H|H])];
             [discriminate | apply Hp in H; discriminate | discriminate].
        -- split; [|reflexivity]. intros _. right. exists all. auto.
      * split; [|reflexivity]. intros _. right. exists all.
        split; [reflexivity|]. split; [exact Hne|]. left. now apply Hp.
  - split; [now left | reflexivity].
Qed.

Lemma write_each_writable {A} (text : A -> outcome pystr) (ok : A -> bool)
      (l : list A) (file out : pystr) :
  (forall x t, text x = Returns t -> encodable t = true -> ok x = true) ->
  write_each text l file = Returns out ->
  forallb ok l = true.
Proof.
  intros Hok H. apply write_each_returns in H. destruct H as (ts & H & _).
  induction H as [|x t l ts [Ht He] _ IH]; [reflexivity|].
  cbn [forallb]. now rewrite (Hok x t Ht He), IH.
Qed.

Lemma write_csv_returns_iff (stories : list Story.t) :
  (exists text, write_csv stories = Returns text) <->
  forallb csv_writable (enumerate stories 1) = true.
Proof.
  split.
  - intros [file H]. unfold write_csv in H.
    rewrite csv_header_written in H. cbn [bind] in H.
    apply (write_each_writable _ csv_writable) in H; [exact H|].
    intros [i s] t Ht He. apply csv_text_returns in Ht.
    destruct Ht as (c & Hc & Hf & ->). unfold csv_writable, created_at_ist in *.
    cbn [fst snd] in *.
    destruct (strftime_ist (Story.time s)); [|discriminate Hc].
    injection Hc as ->. now rewrite Hf, He.
  - intros H. unfold write_csv. rewrite csv_header_written. cbn [bind].
    apply write_each_total with (ok := csv_writable); [|exact H].
    intros [i s]. rewrite csv_text_eq.
    unfold csv_writable, created_at_ist. cbn [fst snd].
    destruct (strftime_ist (Story.time s)) as [c|]; [|discriminate].
    intros He. apply andb_true_iff in He. destruct He as [-> He].
    eexists. split; [reflexivity | exact He].
Qed.

Lemma write_md_returns_iff (stories : list Story.t) :
  (exists text, write_md stories = Returns text) <->
  forallb md_writable (enumerate stories 1) = true.
Proof.
  split.
  - intros [file H]. unfold write_md in H.
    rewrite md_heading_written in H. cbn [bind] in H.
    apply (write_each_writable _ md_writable) in H; [exact H|].
    intros [i s] t Ht He. apply md_text_returns in Ht.
    destruct Ht as (c & Hc & Hf & ->). unfold md_writable, created_at_ist in *.
    cbn [fst snd] in *.
    destruct (strftime_ist (Story.time s)); [|discriminate Hc].
    injection Hc as ->. now rewrite Hf, He.
  - intros H. unfold write_md. rewrite md_heading_written. cbn [bind].
    apply write_each_total with (ok := md_writable); [|exact H].
    intros [i s]. rewrite md_text_eq.
    unfold md_writable, created_at_ist. cbn [fst snd].
    destruct (strftime_ist (Story.time s)) as [c|]; [|discriminate].
    intros He. apply andb_true_iff in He. destruct He as [-> He].
    eexists. split; [reflexivity | exact He].
Qed.

(** X15: the call of an export returns exactly when every story's
    creation time renders, [str] returns on every value the export
    formats, every text it writes encodes as UTF-8, and the operating
    system lets the file be opened, written and closed; otherwise it
    raises. When it returns, the file the path names holds the text and
    no other file has changed. *)
Theorem exports_return_iff (stories : list Story.t) (path : pystr)
        (fs : files) :
  ((exists fs', export write_csv stories path fs = Returns fs') <->
   forallb csv_writable (enumerate stories 1) = true /\
   forall text, write_csv stories = Returns text ->
                os_accepts path text = true) /\
  ((exists fs', export write_md stories path fs = Returns fs') <->
   forallb md_writable (enumerate stories 1) = true /\
   forall text, write_md stories = Returns text ->
                os_accepts path text = true) /\
  (export write_csv stories path fs = Raises \/
   exists text, write_csv stories = Returns text /\
                export write_csv stories path fs
                = Returns (put fs path text)) /\
  (export write_md stories path fs = Raises \/
   exists text, write_md stories = Returns text /\
                export write_md stories path fs
                = Returns (put fs path text)) /\
  (forall text file,
      file_at (put fs path text) path = Some text /\
      (resolve path <> file -> put fs path text file = fs file)).
Proof.
  assert (H : forall writer (ok : bool),
             ((exists text, writer stories = Returns text) <-> ok = true) ->
             ((exists fs', export writer stories path fs = Returns fs') <->
              ok = true /\
              forall text, writer stories = Returns text ->
                           os_accepts path text = true) /\
             (export writer stories path fs = Raises \/
              exists text, writer stories = Returns text /\
                           export writer stories path fs
                           = Returns (put fs path text))).
  { intros writer ok Hok. split.
    - split.
      + intros [fs' E]. apply export_returns in E.
        destruct E as (text & Hw & Ha & _). split.
        * apply Hok. now exists text.
        * intros t Ht. rewrite Hw in Ht. now injection Ht as <-.
      + intros [Ho Ha]. apply Hok in Ho. destruct Ho as [text Hw].
        exists (put fs path text). apply export_returns. exists text.
        auto.
    - unfold export. destruct (writer stories) as [text|]; cbn [bind];
        [|now left].
      destruct (os_accepts path text); [|now left].
      right. exists text. auto. }
  destruct (H write_csv _ (write_csv_returns_iff stories)) as [H1 H2].
  destruct (H write_md _ (write_md_returns_iff stories)) as [H3 H4].
  repeat split; try apply H1; try apply H3; try assumption.
  - now apply put_same.
  - now apply put_other.
Qed.

End Pipeline.

(** ** The even-number scripts *)

(** C9: [find_even_numbers] and [identify_even_numbers] are the same
    function: each returns the elements of its input whose remainder
    modulo 2 is 0, in their original order. *)
Theorem even_filters_agree (numbers : list Z) :
  EvenNumbers.find_even_numbers numbers
  = IdentifyEvenNumbers.identify_even_numbers numbers /\
  EvenNumbers.find_even_numbers numbers = evens_spec numbers /\
  IdentifyEvenNumbers.identify_even_numbers numbers = evens_spec numbers /\
  (forall x, In x (evens_spec numbers) <-> In x numbers /\ x mod 2 = 0).
Proof.
  assert (E : forall l, filter (fun num => num mod 2 =? 0) l = evens_spec l).
  { induction l as [|x r IH]; [reflexivity|]. simpl. rewrite IH.
    destruct (Z.eq_dec (x mod 2) 0) as [H|H].
    - apply Z.eqb_eq in H. now rewrite H.
    - apply Z.eqb_neq in H. now rewrite H. }
  unfold EvenNumbers.find_even_numbers,
    IdentifyEvenNumbers.identify_even_numbers, IdentifyEvenNumbers.is_even.
  split; [reflexivity|]. split; [apply E|]. split; [apply E|].
  intros x. rewrite <- E, filter_In, Z.eqb_eq. tauto.
Qed.

Lemma even_filters_agree_witness :
  EvenNumbers.find_even_numbers [1; 2; 3; 4; -6; 7]
  = IdentifyEvenNumbers.identify_even_numbers [1; 2; 3; 4; -6; 7] /\
  In (-6) (evens_spec [1; 2; 3; 4; -6; 7]).
Proof.
  destruct (even_filters_agree [1; 2; 3; 4; -6; 7]) as (H1 & _ & _ & H4).
  split; [exact H1|]. apply H4. split; [simpl; tauto | reflexivity].
Defined.

(** X10: [is_even] is evenness on all integers, the negative ones
    included: both scripts' [is_even] agree, they hold exactly of the
    doubles, and a number and its opposite are even together. *)
Theorem is_even_spec (n : Z) :
  EvenNumbers.is_even n = IdentifyEvenNumbers.is_even n /\
  (EvenNumbers.is_even n = true <-> exists k, n = 2 * k) /\
  EvenNumbers.is_even (- n) = EvenNumbers.is_even n.
Proof.
  unfold EvenNumbers.is_even, IdentifyEvenNumbers.is_even.
  split; [reflexivity|]. split.
  - rewrite Z.eqb_eq. split.
    + intros H. exists (n / 2).
      pose proof (Z.div_mod n 2 ltac:(lia)) as E. lia.
    + intros [k ->]. rewrite Z.mul_comm. apply Z.mod_mul. lia.
  - pose proof (Z.mod_pos_bound n 2 ltac:(lia)) as B1.
    pose proof (Z.mod_pos_bound (- n) 2 ltac:(lia)) as B2.
    pose proof (Z.div_mod n 2 ltac:(lia)) as E1.
    pose proof (Z.div_mod (- n) 2 ltac:(lia)) as E2.
    destruct (n mod 2 =? 0) eqn:H1; destruct (- n mod 2 =? 0) eqn:H2;
      try reflexivity;
      rewrite ?Z.eqb_eq, ?Z.eqb_neq in *; lia.
Qed.

(** ** Closed examples *)

(** The scenario of the claim on three stories of one creation time, and
    the collector on the example world, which returns a ranked list. *)
Lemma collect_top_new_ranked_witness :
  rank [Example.story 101 50 5 1699990000 "a";
        Example.story 102 50 9 1699990000 "b";
        Example.story 103 30 100 1699990000 "c"]
  = [Example.story 102 50 9 1699990000 "b";
     Example.story 101 50 5 1699990000 "a";
     Example.story 103 30 100 1699990000 "c"] /\
  exists out log,
    collect_top_new Example.urlopen Example.cutoff_at Example.int_of_str
                    Example.str_other Example.ran_ahead 400 24
    = (Returns out, log) /\
    map Story.id out = [JInt 102; JInt 101; JInt 103; JInt 106] /\
    StronglySorted
      (fun x y =>
         Story.score y < Story.score x \/
         (Story.score y = Story.score x /\
          (Story.descendants y < Story.descendants x \/
           (Story.descendants y = Story.descendants x /\
            Story.time y <= Story.time x))))
      out /\
    (List.length out <= 10)%nat.
Proof.
  destruct (collect_top_new_ranked Example.urlopen Example.cutoff_at
              Example.int_of_str Example.str_other Example.ran_ahead)
    as (_ & H2 & H3).
  split.
  - apply (H3 _ _ _ 1699990000); reflexivity.
  - eexists. eexists. split; [vm_compute; reflexivity|].
    split; [reflexivity|].
    apply (H2 400 24 _ _ eq_refl).
Defined.

(** A story created at the cutoff second is kept; what the collector
    returns on the example world is inside the window. *)
Lemma recent_of_inclusive_witness :
  In (Example.story 102 50 9 1699990000 "Ask HN")
     (recent_of 1699990000 Example.top) /\
  exists out log,
    collect_top_new Example.urlopen Example.cutoff_at Example.int_of_str
                    Example.str_other Example.ran_ahead 400 24
    = (Returns out, log) /\
    forall s, In s out -> 1700000000 - 3600 * 24 <= Story.time s.
Proof.
  destruct (recent_of_inclusive Example.urlopen Example.cutoff_at
              Example.int_of_str Example.str_other Example.ran_ahead)
    as (_ & H2 & _ & H4).
  split.
  - apply H2; [left; reflexivity | reflexivity].
  - eexists. eexists. split; [vm_compute; reflexivity|].
    apply (H4 400 24 _ _ _ eq_refl eq_refl).
Defined.

(** Item 105 of the example world is a story record with no field; item
    107 is not served, and the fetch fails in a caught way. *)
Lemma get_item_defaults_witness :
  fst (get_item Example.urlopen Example.int_of_str Example.str_other (JInt 105))
  = Returns (Some (Story.mk JNull (JStr (lit "(no title)")) JNull 0
                            (JStr (lit "unknown")) 0 0)) /\
  fst (get_item Example.urlopen Example.int_of_str Example.str_other (JInt 107))
  = Returns None.
Proof.
  split.
  - destruct (get_item_defaults Example.urlopen Example.int_of_str
                Example.str_other (JInt 105)) as (_ & H).
    destruct (H eq_refl) as (_ & _ & _ & _ & H1).
    destruct (H1 [(lit "type", JStr (lit "story"))] eq_refl) as [_ H2].
    destruct (H2 eq_refl) as [_ H3].
    destruct (H3 0 0 0 eq_refl eq_refl eq_refl) as [H4 _].
    exact H4.
  - destruct (get_item_defaults Example.urlopen Example.int_of_str
                Example.str_other (JInt 107)) as (_ & H).
    destruct (H eq_refl) as (H1 & _).
    apply H1. reflexivity.
Defined.

(** A story record whose score is a list: the reader raises. *)
Lemma get_item_raises_on_list_score :
  Example.urlopen_odd (item_url Example.str_other (JInt 201))
  = Body (JObj [(lit "id", JInt 201); (lit "score", JArr [JInt 1]);
                (lit "type", JStr (lit "story"))]) /\
  fst (get_item Example.urlopen_odd Example.int_of_str Example.str_other
                (JInt 201)) = Raises /\
  forall s : option Story.t,
    fst (get_item Example.urlopen_odd Example.int_of_str Example.str_other
                  (JInt 201)) <> Returns s.
Proof.
  split; [reflexivity|]. split; [reflexivity|].
  intros s. vm_compute. discriminate.
Qed.

Lemma human_trunc_bounded_witness :
  human_trunc (JStr (lit "abcdef")) 4 = Returns (JStr (lit "abc" ++ [ellipsis])) /\
  exists r, human_trunc (JStr (lit "abcdef")) 4 = Returns (JStr r) /\ len r <= 4.
Proof.
  destruct (human_trunc_bounded (lit "abcdef") 4) as (_ & H2 & H3).
  split.
  - apply H2; [lia | vm_compute; reflexivity].
  - apply H3. lia.
Defined.

(** With a maximum of 0 the result is longer than the maximum. *)
Lemma human_trunc_zero_too_long :
  human_trunc (JStr (lit "ab")) 0 = Returns (JStr [97%N; ellipsis]) /\
  ~ (len [97%N; ellipsis] <= 0).
Proof.
  split; [reflexivity|]. vm_compute. intros H. now apply H.
Qed.

(** Item 101 of the example world: the reader's Story has a non-empty
    title and counts that are not negative. *)
Lemma story_invariants_witness :
  exists s,
    fst (get_item Example.urlopen Example.int_of_str Example.str_other (JInt 101))
    = Returns (Some s) /\
    truthy (Story.title s) = true /\
    0 <= Story.score s /\ 0 <= Story.descendants s.
Proof.
  eexists. split; [vm_compute; reflexivity|].
  destruct (proj1 (story_invariants Example.urlopen Example.cutoff_at
                     Example.int_of_str Example.str_other Example.ran_ahead)
              (JInt 101) _ eq_refl)
    as (items & Hu & Htr & _ & _ & _ & Hsc & Hds).
  vm_compute in Hu. injection Hu as <-.
  split; [exact Htr|]. split.
  - apply Hsc. right. exists 50. split; [reflexivity | lia].
  - apply Hds. right. exists 5. split; [reflexivity | lia].
Defined.

(** Item 106 of the example world has score -1: so has its Story. *)
Lemma story_score_negative :
  fst (get_item Example.urlopen Example.int_of_str Example.str_other (JInt 106))
  = Returns (Some (Story.mk (JInt 106) (JStr (lit "(no title)")) JNull (-1)
                            (JStr (lit "unknown")) 1699990000 0)) /\
  ~ (0 <= Story.score
            (Story.mk (JInt 106) (JStr (lit "(no title)")) JNull (-1)
                      (JStr (lit "unknown")) 1699990000 0)).
Proof.
  split; [reflexivity|]. simpl. lia.
Qed.

(** The two stories of [Example.top], written and read back: three
    records on three lines. *)
Lemma write_csv_roundtrip_witness :
  exists file rows,
    write_csv Example.strftime_ist Example.str_other Example.top = Returns file /\
    List.length (CSV_HEADER_TEXT :: rows) = 3%nat /\
    file = flat_map csv_record (CSV_HEADER_TEXT :: rows) /\
    CsvReader.read file = Returns (CSV_HEADER_TEXT :: rows) /\
    List.length (file_lines file []) = 3%nat.
Proof.
  destruct (write_csv_roundtrip Example.strftime_ist Example.str_other Example.top)
    as (H1 & H2 & _).
  assert (Hw : forallb (csv_writable Example.strftime_ist Example.str_other)
                       (enumerate Example.top 1) = true)
    by (vm_compute; reflexivity).
  destruct (H1 Hw) as [file Hf].
  destruct (H2 file Hf) as (rows & Hlen & Hnth & Hfile & Hread & Hlines).
  destruct (Hnth 0%nat _ eq_refl) as (c0 & Hc0 & E0).
  destruct (Hnth 1%nat _ eq_refl) as (c1 & Hc1 & E1).
  vm_compute in Hc0. injection Hc0 as <-.
  vm_compute in Hc1. injection Hc1 as <-.
  destruct rows as [|r0 [|r1 [|r2 rows]]]; try discriminate Hlen.
  injection E0 as E0. injection E1 as E1.
  exists file, [r0; r1]. split; [exact Hf|]. split; [reflexivity|].
  split; [exact Hfile|]. split.
  - apply Hread. rewrite E0, E1.
    repeat constructor; vm_compute; discriminate.
  - apply Hlines. rewrite E0, E1. repeat constructor.
Defined.

(** One story whose title holds a line feed: the file has two records,
    the reader gives them back, and the file has three lines, not two. *)
Lemma write_csv_line_break_three_lines :
  exists file,
    write_csv Example.strftime_ist Example.str_other [Example.two_line_title]
    = Returns file /\
    CsvReader.read file
    = Returns [CSV_HEADER_TEXT;
               csv_row Example.str_other 1 Example.two_line_title
                       (lit "2023-11-15 00:56:40 IST")] /\
    List.length (file_lines file []) = 3%nat /\
    List.length (file_lines file [])
    <> (List.length [Example.two_line_title] + 1)%nat.
Proof.
  eexists. split; [vm_compute; reflexivity|].
  split; [vm_compute; reflexivity|].
  split; [vm_compute; reflexivity|].
  vm_compute. discriminate.
Qed.

Lemma write_md_lines_witness :
  exists file lines,
    write_md Example.strftime_ist Example.str_other Example.top = Returns file /\
    file_lines file [] = MD_HEADING :: [] :: lines /\
    List.length (file_lines file []) = 4%nat.
Proof.
  destruct (write_md_lines Example.strftime_ist Example.str_other Example.top)
    as (H1 & H2 & _).
  assert (Hw : forallb (md_writable Example.strftime_ist Example.str_other)
                       (enumerate Example.top 1) = true)
    by (vm_compute; reflexivity).
  destruct (H1 Hw) as [file Hf].
  destruct (H2 file Hf) as (lines & Hlen & Hnth & Hfile & Hlines).
  exists file, lines. split; [exact Hf|]. apply Hlines.
  destruct (Hnth 0%nat _ eq_refl) as (c0 & Hc0 & E0).
  destruct (Hnth 1%nat _ eq_refl) as (c1 & Hc1 & E1).
  vm_compute in Hc0. injection Hc0 as <-.
  vm_compute in Hc1. injection Hc1 as <-.
  destruct lines as [|l0 [|l1 [|l2 lines]]]; try discriminate Hlen.
  injection E0 as ->. injection E1 as ->.
  repeat constructor.
Defined.

(** With no story the Markdown file has two lines, not one. *)
Lemma write_md_empty_two_lines :
  write_md Example.strftime_ist Example.str_other []
  = Returns (MD_HEADING ++ [LF; LF]) /\
  List.length (file_lines (MD_HEADING ++ [LF; LF]) []) = 2%nat /\
  List.length (file_lines (MD_HEADING ++ [LF; LF]) [])
  <> (1 + List.length (@nil Story.t))%nat.
Proof.
  split; [reflexivity|]. split; [reflexivity|]. vm_compute. discriminate.
Qed.

(** The world whose feed is empty: one request, no story. *)
Lemma empty_run_witness :
  collect_top_new Example.urlopen_empty Example.cutoff_at Example.int_of_str
                  Example.str_other Example.ran_ahead 400 24
  = (Returns [], [NEW_STORIES_ENDPOINT]).
Proof.
  apply (proj1 (empty_run Example.urlopen_empty Example.cutoff_at
                  Example.strftime_ist Example.int_of_str Example.str_other
                  Example.ran_ahead)
           400 24 eq_refl).
Defined.

(** Item 105 of the example world is a story record without "id". *)
Lemma get_item_missing_id_witness :
  exists s,
    fst (get_item Example.urlopen Example.int_of_str Example.str_other (JInt 105))
    = Returns (Some s) /\
    Story.id s = JNull /\
    hn_link Example.str_other s = lit "https://news.ycombinator.com/item?id=None".
Proof.
  eexists. split; [vm_compute; reflexivity|].
  apply (proj1 (get_item_missing_id Example.urlopen Example.int_of_str
                  Example.str_other)
           (JInt 105) [(lit "type", JStr (lit "story"))] _ eq_refl eq_refl eq_refl).
Defined.

(** The URL is given no default either: the identifier is not the only
    such field. *)
Lemma url_undefaulted_too :
  ~ (forall f : field, undefaulted Example.int_of_str f -> f = F_id).
Proof.
  intros H.
  assert (E : F_url = F_id).
  { apply H. apply undefaulted_url. }
  discriminate E.
Qed.

(** ** Closed examples of the further properties *)

Lemma rank_length_witness : Permutation Example.top (rank Example.top).
Proof.
  apply (proj2 (rank_length Example.top)). simpl. lia.
Defined.

(** Of eleven stories the one of score 1 is left out, and its score is
    lower than that of the story of score 11, which is returned. *)
Lemma rank_keeps_best_witness :
  Story.score (Example.story 1 1 0 1699990000 "t")
  < Story.score (Example.story 11 11 0 1699990000 "t") \/
  (Story.score (Example.story 1 1 0 1699990000 "t")
   = Story.score (Example.story 11 11 0 1699990000 "t") /\
   (Story.descendants (Example.story 1 1 0 1699990000 "t")
    < Story.descendants (Example.story 11 11 0 1699990000 "t") \/
    (Story.descendants (Example.story 1 1 0 1699990000 "t")
     = Story.descendants (Example.story 11 11 0 1699990000 "t") /\
     Story.time (Example.story 1 1 0 1699990000 "t")
     <= Story.time (Example.story 11 11 0 1699990000 "t")))).
Proof.
  destruct (rank_keeps_best Example.many) as (rest & Hp & H).
  apply H.
  - vm_compute. left. reflexivity.
  - assert (Hin : In (Example.story 1 1 0 1699990000 "t") Example.many)
      by (left; reflexivity).
    apply (Permutation_in _ Hp), in_app_or in Hin.
    destruct Hin as [Hin|Hin]; [|exact Hin].
    vm_compute in Hin.
    repeat (destruct Hin as [Hin|Hin]; [discriminate Hin|]).
    destruct Hin.
Defined.

Lemma rank_idempotent_witness :
  sort_desc (rank Example.many) = rank Example.many.
Proof.
  apply (proj1 (rank_idempotent (rank Example.many))).
  apply rank_ranked.
Defined.


(** Item 104 of the example world is a comment: nothing is returned. *)
Lemma get_item_outcomes_witness :
  snd (get_item Example.urlopen Example.int_of_str Example.str_other (JInt 104))
  = [Example.item "104"] /\
  fst (get_item Example.urlopen Example.int_of_str Example.str_other (JInt 104))
  = Returns None.
Proof.
  destruct (proj2 (get_item_outcomes Example.urlopen Example.int_of_str
                     Example.str_other (JInt 104)) eq_refl)
    as (H1 & H2 & _).
  split; [rewrite H1; vm_compute; reflexivity|].
  apply H2.
  right. eexists. split; [reflexivity|]. right. eexists.
  split; reflexivity.
Defined.

(** A story record with an empty title and a null score. *)
Lemma story_of_falsy_defaults_witness :
  Story.title
    (Story.mk (JInt 7) (JStr (lit "(no title)")) JNull 0
              (JStr (lit "unknown")) 0 0)
  = JStr (lit "(no title)").
Proof.
  apply (proj1 (story_of_falsy_defaults Example.int_of_str
                  [(lit "id", JInt 7); (lit "score", JNull);
                   (lit "title", JStr []); (lit "type", JStr (lit "story"))]
                  _ eq_refl)).
  reflexivity.
Defined.

Lemma item_url_injective_witness : 101 = 101.
Proof.
  apply (proj1 (item_url_injective Example.str_other 101 101)). reflexivity.
Defined.

Lemma human_trunc_idempotent_witness :
  exists r,
    human_trunc (JStr (lit "abcdef")) 4 = Returns (JStr r) /\
    human_trunc (JStr r) 4 = Returns (JStr r).
Proof.
  destruct (proj1 (human_trunc_idempotent (lit "abcdef") 4 ltac:(lia)))
    as (r & H1 & H2 & _).
  exists r. split; assumption.
Defined.

Lemma is_even_spec_witness : EvenNumbers.is_even (-6) = true.
Proof.
  apply (proj1 (proj2 (is_even_spec (-6)))). exists (-3). reflexivity.
Defined.



(** A run of the example world with both exports, and a run that names
    one file twice: the file holds the Markdown text. *)
Lemma main_exports_witness :
  (exists out fs' log stories text,
      main Example.urlopen Example.cutoff_at Example.strftime_ist
           Example.int_of_str Example.str_other Example.ran_ahead
           Example.resolve Example.os_accepts
           Example.both Example.no_files
      = (Returns (out, fs'), log) /\
      write_md Example.strftime_ist Example.str_other stories = Returns text /\
      fs' (lit "top.md") = Some text /\
      fs' (lit "other") = None) /\
  (exists out fs' log stories text,
      main Example.urlopen Example.cutoff_at Example.strftime_ist
           Example.int_of_str Example.str_other Example.ran_ahead
           Example.resolve_dot Example.os_accepts
           Example.same_file Example.no_files
      = (Returns (out, fs'), log) /\
      write_md Example.strftime_ist Example.str_other stories = Returns text /\
      fs' (lit "top.csv") = Some text).
Proof.
  split.
  - assert (H : exists r log,
               main Example.urlopen Example.cutoff_at Example.strftime_ist
                    Example.int_of_str Example.str_other Example.ran_ahead
                    Example.resolve Example.os_accepts
                    Example.both Example.no_files
               = (Returns r, log))
      by (eexists; eexists; vm_compute; reflexivity).
    destruct H as ([out fs'] & log & H).
    destruct (main_exports _ _ _ _ _ _ _ _ _ _ _ _ _ H)
      as (stories & lines & _ & _ & _ & Hmd & _ & _ & Hother).
    destruct (Hmd (lit "top.md") eq_refl) as (text & Ht & Hf).
    exists out, fs', log, stories, text.
    split; [exact H|]. split; [exact Ht|]. split; [exact Hf|].
    apply (Hother (lit "other"));
      intros p Hp; vm_compute in Hp; injection Hp as <-;
      vm_compute; discriminate.
  - assert (H : exists r log,
               main Example.urlopen Example.cutoff_at Example.strftime_ist
                    Example.int_of_str Example.str_other Example.ran_ahead
                    Example.resolve_dot Example.os_accepts
                    Example.same_file Example.no_files
               = (Returns r, log))
      by (eexists; eexists; vm_compute; reflexivity).
    destruct H as ([out fs'] & log & H).
    destruct (main_exports _ _ _ _ _ _ _ _ _ _ _ _ _ H)
      as (stories & lines & _ & _ & _ & _ & _ & Hsame & _).
    destruct (Hsame (lit "top.csv") (lit "./top.csv") eq_refl eq_refl eq_refl)
      as (text & Ht & Hf).
    exists out, fs', log, stories, text.
    split; [exact H|]. split; [exact Ht | exact Hf].
Defined.

(** The world that serves a story whose score is a list: the collector
    raises. *)
Lemma collect_top_new_raises_witness :
  fst (collect_top_new Example.urlopen_bad_item Example.cutoff_at
                       Example.int_of_str Example.str_other
                       Example.ran_ahead 400 24)
  = Raises.
Proof.
  apply (proj2 (collect_top_new_raises Example.urlopen_bad_item
                  Example.cutoff_at Example.int_of_str Example.str_other
                  Example.ran_ahead 400 24)).
  right. exists [JInt 101; JInt 201].
  split; [vm_compute; reflexivity|].
  change (slice_to [JInt 101; JInt 201] 400) with [JInt 101; JInt 201].
  split; [discriminate|].
  left. apply Exists_cons_tl, Exists_cons_hd. vm_compute. reflexivity.
Defined.

(** The Markdown export of [Example.top] returns and leaves the text in
    the file. *)
Lemma exports_return_iff_witness :
  exists text,
    write_md Example.strftime_ist Example.str_other Example.top
    = Returns text /\
    export Example.resolve Example.os_accepts
           (write_md Example.strftime_ist Example.str_other)
           Example.top (lit "top.md") Example.no_files
    = Returns (put Example.resolve Example.no_files (lit "top.md") text).
Proof.
  destruct (exports_return_iff Example.strftime_ist Example.str_other
              Example.resolve Example.os_accepts Example.top (lit "top.md")
              Example.no_files)
    as (_ & H2 & _ & H4 & _).
  destruct H4 as [H4|H4]; [|exact H4].
  exfalso.
  assert (H : exists fs',
             export Example.resolve Example.os_accepts
                    (write_md Example.strftime_ist Example.str_other)
                    Example.top (lit "top.md") Example.no_files
             = Returns fs').
  { apply (proj2 H2). split; [vm_compute; reflexivity|].
    intros text _. reflexivity. }
  destruct H as [fs' H]. rewrite H in H4. discriminate H4.
Defined.
